(** * check/pytest-changed-files: change-driven test selection

    A shallow embedding of the shell script [check/pytest-changed-files]
    and the properties of its revision resolution, test-file derivation,
    global-init augmentation and test invocation.

    Modelling conventions.
    - Strings are byte strings ([string] of [ascii]).
    - External programs ([git], [perl -e], [pytest]) and the ambient
      process state (environment, locale, directory contents) are the
      fields of a [World] record; the script is a function of the world
      and of its positional parameters.
    - The script is written in a small monad [Sh] that threads the list
      of observable actions performed so far and stops at [exit].
    - An [echo] to standard error is recorded with its operand; how
      [echo -e] renders the backslash sequences of the operand is not
      modelled.
    - [dev_tools/pypath], which the script sources, is recorded as an
      action and taken to leave [rest], [changed] and the seed variable
      as they are.
    - The model starts after the two [cd] commands at the top of the
      script, with the repository root as working directory. *)

From Stdlib Require Import String Ascii List Bool Arith ZArith Lia.
From Stdlib Require Import Sorting.Sorted.
From Stdlib Require Import Numbers.DecimalString.
Import ListNotations.

Local Open Scope string_scope.
Local Open Scope list_scope.

(** ** Text utilities used by the pipeline stages *)

Module Text.

(** [grep "SUF$"] on one line, for a literal [SUF]: the line ends with
    [suf]. *)
Fixpoint has_suffix (suf s : string) : bool :=
  if String.eqb s suf then true
  else match s with
       | EmptyString => false
       | String _ s' => has_suffix suf s'
       end.

(** [sed -e "s/OLD$/NEW/"] on one line, for a literal [OLD]: the final
    occurrence of [old] at the end of the line is replaced by [new];
    a line that does not end with [old] is left as it is. *)
Fixpoint sed_suffix (old new s : string) : string :=
  if String.eqb s old then new
  else match s with
       | EmptyString => EmptyString
       | String c s' => String c (sed_suffix old new s')
       end.

(** The characters of the default [IFS]: space, tab, newline. *)
Definition is_ifs (c : ascii) : bool :=
  Ascii.eqb c " " || Ascii.eqb c "009" || Ascii.eqb c "010".

(** Shell word splitting of an unquoted expansion under the default
    [IFS]: maximal runs of non-blank characters. [acc] is the word being
    read. *)
Fixpoint words_from (acc : string) (s : string) : list string :=
  match s with
  | EmptyString => if String.eqb acc "" then [] else [acc]
  | String c s' =>
      if is_ifs c then
        if String.eqb acc "" then words_from "" s'
        else acc :: words_from "" s'
      else words_from (acc ++ String c "") s'
  end.

Definition word_split (s : string) : list string := words_from "" s.

(** [${#changed[@]}] printed in decimal. *)
Definition string_of_nat (n : nat) : string :=
  NilEmpty.string_of_uint (Nat.to_uint n).

(** [sort]: the lines in non-decreasing order of the collation [le]
    (for a total order on lines there is one such arrangement, whatever
    the sorting algorithm). *)
Fixpoint insert_line (le : string -> string -> bool) (x : string)
  (l : list string) : list string :=
  match l with
  | [] => [x]
  | y :: tl => if le x y then x :: l else y :: insert_line le x tl
  end.

Fixpoint sort (le : string -> string -> bool) (l : list string) : list string :=
  match l with
  | [] => []
  | x :: tl => insert_line le x (sort le tl)
  end.

(** [uniq]: every run of adjacent equal lines is reduced to its first
    line. *)
Fixpoint uniq (l : list string) : list string :=
  match l with
  | [] => []
  | x :: tl =>
      match tl with
      | [] => [x]
      | y :: _ => if String.eqb x y then uniq tl else x :: uniq tl
      end
  end.

End Text.

(** ** The world the script runs in *)

Record World := mkWorld {
  (** standard output of [git cat-file -t ARG 2> /dev/null], where [ARG]
      is the text put on the command line, without the final newline *)
  git_cat_file_t : string -> string;
  (** lines printed by the [n]-th run (counted from 0) of
      [git diff --name-only REV --]: the working tree may change
      between two runs, and the script writes [${rev}] unquoted in the
      first run and quoted in the second *)
  git_diff_name_only : nat -> string -> list string;
  (** perl's [-e]: the path exists *)
  file_exists : string -> bool;
  (** the order [sort] puts lines in (it depends on the locale) *)
  collate : string -> string -> bool;
  (** pathname expansion of one word of an unquoted expansion *)
  pathname_expand : string -> list string;
  (** [CIRQ_TESTING_RANDOM_SEED] in the environment, when set *)
  env_seed : option string;
  (** standard output of [git log -1 --pretty="%ct"] *)
  git_log_ct : string;
  (** exit status of [pytest ARGV] run with the given exported seed *)
  pytest : list string -> string -> Z
}.

(** [collate] is a total order on lines. GNU [sort] compares with the
    locale's collation and breaks ties byte by byte, which is one. *)
Record total_order (le : string -> string -> bool) : Prop := {
  le_total : forall x y, le x y = true \/ le y x = true;
  le_trans : forall x y z, le x y = true -> le y z = true -> le x z = true;
  le_antisym : forall x y, le x y = true -> le y x = true -> x = y
}.

(** ** Observable actions and the script monad *)

Inductive event : Type :=
| CatFile (arg : string)            (* git cat-file -t ARG *)
| EchoErr (e : bool) (msg : string) (* echo [-e] MSG >&2; [msg] is the operand *)
| Diff (rev : string)               (* git diff --name-only REV -- *)
| Source (file : string)            (* source FILE *)
| GitLog                            (* git log -1 --pretty="%ct" *)
| Export (seed : string)            (* export CIRQ_TESTING_RANDOM_SEED *)
| Pytest (argv : list string).      (* pytest ARGV *)

Record state := mkState {
  trace : list event;  (* actions so far, oldest first *)
  diffs : nat          (* number of name-only diffs run so far *)
}.

Inductive result (A : Type) : Type :=
| Ret (a : A) (s : state)
| Exit (code : Z) (s : state).
Arguments Ret {A} a s.
Arguments Exit {A} code s.

Definition Sh (A : Type) : Type := state -> result A.

Definition ret {A} (a : A) : Sh A := fun s => Ret a s.

Definition bind {A B} (m : Sh A) (k : A -> Sh B) : Sh B :=
  fun s => match m s with
           | Ret a s' => k a s'
           | Exit c s' => Exit c s'
           end.

Definition exit {A} (code : Z) : Sh A := fun s => Exit code s.

Definition emit (e : event) : Sh unit :=
  fun s => Ret tt {| trace := trace s ++ [e]; diffs := diffs s |}.

Declare Scope sh_scope.
Delimit Scope sh_scope with sh.
Notation "x <- m ;; k" := (bind m (fun x => k))
  (at level 61, m at next level, right associativity) : sh_scope.
Notation "m ;; k" := (bind m (fun _ => k))
  (at level 61, right associativity) : sh_scope.
Local Open Scope sh_scope.

(** ** The script *)

Section Script.

Variable w : World.

(** Line 68: the global API test. *)
Definition global_api_test : string :=
  "cirq-core/cirq/protocols/json_serialization_test.py".

(** [[ "$(git cat-file -t ARG 2> /dev/null)" == "commit" ]] *)
Definition is_commit (arg : string) : Sh bool :=
  emit (CatFile arg) ;;
  ret (String.eqb (git_cat_file_t w arg) "commit").

(** [echo -e "\033[31mMSG\033[0m" >&2] *)
Definition red (msg : string) : string := "\033[31m" ++ msg ++ "\033[0m".

Definition no_revision_msg (arg : string) : string :=
  red ("No revision '" ++ arg ++ "'.").

Definition no_default_msg : string :=
  red ("No default revision found to compare against. Argument #1 must be what to diff against (e.g. 'origin/master' or 'HEAD~1').").

(** Lines 35-52: the revision to compare against and the text of [rest].
    [$@] and [${@:2}] in an assignment are the parameters joined by
    spaces. *)
Definition resolve_revision (args : list string) : Sh (string * string) :=
  let arg1 := hd "" args in
  let rest := String.concat " " args in
  if negb (String.eqb arg1 "") && negb (String.prefix "-" arg1) then
    ok <- is_commit arg1 ;;
    if negb ok then
      emit (EchoErr true (no_revision_msg arg1)) ;;
      exit 1%Z
    else
      ret (arg1, String.concat " " (tl args))
  else
    ok1 <- is_commit "upstream/master" ;;
    if ok1 then ret ("upstream/master", rest) else
    ok2 <- is_commit "origin/master" ;;
    if ok2 then ret ("origin/master", rest) else
    ok3 <- is_commit "master" ;;
    if ok3 then ret ("master", rest) else
    emit (EchoErr true no_default_msg) ;;
    exit 1%Z.

(** [git diff --name-only REV --]: the lines of its output. *)
Definition git_diff (rev : string) : Sh (list string) :=
  fun s =>
    Ret (git_diff_name_only w (diffs s) rev)
        {| trace := trace s ++ [Diff rev]; diffs := S (diffs s) |}.

(** Lines 57-63: the pipeline that fills the array [changed]. *)
Definition grep_py (lines : list string) : list string :=
  filter (Text.has_suffix ".py") lines.

Definition to_test_name (line : string) : string :=
  Text.sed_suffix "_test_test.py" "_test.py"
    (Text.sed_suffix ".py" "_test.py" line).

Definition derived_tests (lines : list string) : list string :=
  Text.uniq
    (Text.sort (collate w)
       (filter (file_exists w)
          (map to_test_name (grep_py lines)))).

(** Line 65: [grep "__init__\.py$" > /dev/null] succeeds. *)
Definition init_touched (lines : list string) : bool :=
  existsb (Text.has_suffix "__init__.py") lines.

(** Lines 55-70: the final content of the array [changed]. *)
Definition changed_tests : string -> Sh (list string) := fun rev =>
  lines <- git_diff rev ;;
  let changed := derived_tests lines in
  lines' <- git_diff rev ;;
  if init_touched lines' then ret (changed ++ [global_api_test])
  else ret changed.

(** [${rest}], unquoted: word splitting, then pathname expansion. *)
Definition expand_rest (rest : string) : list string :=
  flat_map (pathname_expand w) (Text.word_split rest).

(** Lines 80-81: [: ${CIRQ_TESTING_RANDOM_SEED=$(git log ...)}]; the
    command substitution runs only when the variable is unset. *)
Definition testing_seed : Sh string :=
  match env_seed w with
  | Some s => ret s
  | None => emit GitLog ;; ret (git_log_ct w)
  end.

(** Lines 72-83. The value is the exit status of the last command. *)
Definition run_tests (rest : string) (changed : list string) : Sh Z :=
  let num_changed := length changed in
  emit (EchoErr false ("Found " ++ Text.string_of_nat num_changed
                         ++ " test files associated with changes.")) ;;
  if Nat.eqb num_changed 0 then exit 0%Z else
  emit (Source "dev_tools/pypath") ;;
  seed <- testing_seed ;;
  emit (Export seed) ;;
  let argv := expand_rest rest ++ changed in
  emit (Pytest argv) ;;
  ret (pytest w argv seed).

Definition main (args : list string) : Sh Z :=
  rr <- resolve_revision args ;;
  let rev := fst rr in
  let rest := snd rr in
  emit (EchoErr false ("Comparing against revision '" ++ rev ++ "'.")) ;;
  changed <- changed_tests rev ;;
  run_tests rest changed.

End Script.

(** What an invocation of the script is observed to do: the script ends
    at an [exit] or with the status of its last command. *)
Record outcome := mkOutcome {
  exit_code : Z;
  events : list event
}.

Definition init_state : state := {| trace := []; diffs := 0 |}.

Definition run (w : World) (args : list string) : outcome :=
  match main w args init_state with
  | Ret c s => {| exit_code := c; events := trace s |}
  | Exit c s => {| exit_code := c; events := trace s |}
  end.

(** ** Vocabulary of the statements *)

(** The default revisions, in the order of the [elif] chain of lines
    43-48 and of the header of the script. *)
Definition default_revs : list string :=
  ["upstream/master"; "origin/master"; "master"].

(** The state after some more actions. *)
Definition log (s : state) (evs : list event) : state :=
  {| trace := trace s ++ evs; diffs := diffs s |}.

(** [$1] is taken as the revision: it is non-empty and is not a flag. *)
Definition revision_given (args : list string) : bool :=
  negb (String.eqb (hd "" args) "") && negb (String.prefix "-" (hd "" args)).

(** [git cat-file -t REV] prints [commit]. *)
Definition resolves (w : World) (rev : string) : bool :=
  String.eqb (git_cat_file_t w rev) "commit".

(** The parameters that [rest] is made of. *)
Definition rest_args (args : list string) : list string :=
  if revision_given args then tl args else args.

(** No revision to compare against: the given one is not a commit, or
    none is given and no default candidate is a commit. *)
Definition unresolvable (w : World) (args : list string) : bool :=
  if revision_given args then negb (resolves w (hd "" args))
  else forallb (fun r => negb (resolves w r)) default_revs.

(** The array [changed] after line 69, when the first of the two diffs
    is the [n]-th one run. *)
Definition selected_tests (w : World) (n : nat) (rev : string) : list string :=
  derived_tests w (git_diff_name_only w n rev)
  ++ (if init_touched (git_diff_name_only w (S n) rev)
      then [global_api_test] else []).

(** The seed exported by lines 80-81 and the actions that compute it. *)
Definition seed_value (w : World) : string :=
  match env_seed w with Some s => s | None => git_log_ct w end.

Definition seed_events (w : World) : list event :=
  match env_seed w with Some _ => [] | None => [GitLog] end.

(** The operands of the two plain [echo ... >&2]. *)
Definition comparing_msg (rev : string) : string :=
  ("Comparing against revision '" ++ rev ++ "'.")%string.

Definition found_msg (n : nat) : string :=
  ("Found " ++ Text.string_of_nat n ++ " test files associated with changes.")%string.

(** The actions of a run that gets past revision resolution, up to
    and including the two diffs. *)
Definition selection_events (rev : string) : list event :=
  [EchoErr false (comparing_msg rev); Diff rev; Diff rev].

(** The actions of lines 80-83 for the command line [argv]. *)
Definition test_events (w : World) (argv : list string) : list event :=
  Source "dev_tools/pypath" :: seed_events w
  ++ [Export (seed_value w); Pytest argv].

(** Actions of revision resolution. *)
Definition is_probe (e : event) : bool :=
  match e with CatFile _ | EchoErr true _ => true | _ => false end.

Definition is_diff (e : event) : bool :=
  match e with Diff _ => true | _ => false end.

Definition is_pytest (e : event) : bool :=
  match e with Pytest _ => true | _ => false end.

(** No character of the default [IFS] occurs in [s]. *)
Fixpoint no_blank (s : string) : bool :=
  match s with
  | EmptyString => true
  | String c s' => negb (Text.is_ifs c) && no_blank s'
  end.

(** A parameter that word splitting gives back as it is: it is not empty
    and has no space, tab or newline. *)
Definition plain_word (a : string) : bool :=
  negb (String.eqb a "") && no_blank a.

(** Word splitting, as the shell manual words it. A blank is a space,
    a tab or a newline. *)
Definition blank (c : ascii) : Prop :=
  c = " "%char \/ c = "009"%char \/ c = "010"%char.

Definition blank_free (s : string) : Prop :=
  forall c, In c (list_ascii_of_string s) -> ~ blank c.

(** A word is a non-empty text without blank. *)
Definition word (s : string) : Prop := s <> ""%string /\ blank_free s.

(** [splits s ws]: the text [s] is the words [ws], in this order, with
    at least one blank between two words and any number of blanks before
    the first and after the last. *)
Inductive splits : string -> list string -> Prop :=
| splits_nil : splits "" []
| splits_blank (c : ascii) (s : string) (ws : list string) :
    blank c -> splits s ws -> splits (String c s) ws
| splits_last (x : string) :
    word x -> splits x [x]
| splits_word (x : string) (c : ascii) (s : string) (ws : list string) :
    word x -> blank c -> splits s ws -> splits (x ++ String c s) (x :: ws).

(** The lines written to standard error. *)
Definition is_echo (e : event) : bool :=
  match e with EchoErr _ _ => true | _ => false end.

(** The revision the [if]/[elif] chain of lines 36-52 settles on, when
    there is one. *)
Definition chosen_revision (w : World) (args : list string) : option string :=
  if revision_given args
  then if resolves w (hd "" args) then Some (hd "" args) else None
  else find (resolves w) default_revs.

(** ** Sample worlds *)

(** Worlds in which the statements are tried: [origin/master], [master]
    or [HEAD] is the only commit known, a few files changed, and the
    C locale orders the lines. *)
Definition w_c1 : World := {|
  git_cat_file_t := fun a => if String.eqb a "origin/master" then "commit" else "";
  git_diff_name_only := fun _ _ =>
    ["pkg/module.py"; "notes.md"; "pkg/new.py"; "pkg/module_test.py"];
  file_exists := fun p => String.eqb p "pkg/module_test.py";
  collate := String.leb;
  pathname_expand := fun x => [x];
  env_seed := None;
  git_log_ct := "1700000000";
  pytest := fun _ _ => 0%Z |}.

Definition w_none : World := {|
  git_cat_file_t := fun _ => "";
  git_diff_name_only := fun _ _ => [];
  file_exists := fun _ => false;
  collate := String.leb;
  pathname_expand := fun x => [x];
  env_seed := None;
  git_log_ct := "1700000000";
  pytest := fun _ _ => 0%Z |}.

Definition w_origin : World := {|
  git_cat_file_t := fun a =>
    if String.eqb a "origin/master" || String.eqb a "master"
    then "commit" else "";
  git_diff_name_only := fun _ _ => ["a/foo.py"; "a/__init__.py"];
  file_exists := fun p => String.eqb p "a/foo_test.py";
  collate := String.leb;
  pathname_expand := fun x => [x];
  env_seed := None;
  git_log_ct := "1700000000";
  pytest := fun _ _ => 3%Z |}.

Definition w_seeded : World := {|
  git_cat_file_t := fun a => if String.eqb a "master" then "commit" else "";
  git_diff_name_only := fun _ _ => ["b/bar_test.py"];
  file_exists := fun p => String.eqb p "b/bar_test.py";
  collate := String.leb;
  pathname_expand := fun x => [x];
  env_seed := Some "42";
  git_log_ct := "1700000000";
  pytest := fun _ _ => 0%Z |}.

Definition w_unseeded : World := {|
  git_cat_file_t := fun a => if String.eqb a "master" then "commit" else "";
  git_diff_name_only := fun _ _ => ["b/bar_test.py"];
  file_exists := fun p => String.eqb p "b/bar_test.py";
  collate := String.leb;
  pathname_expand := fun x => [x];
  env_seed := None;
  git_log_ct := "1700000000";
  pytest := fun _ _ => 1%Z |}.

(** A working tree that changes between the two diffs. *)
Definition w_drift : World := {|
  git_cat_file_t := fun a => if String.eqb a "HEAD" then "commit" else "";
  git_diff_name_only := fun n _ =>
    if Nat.eqb n 0 then ["a/foo.py"] else ["a/foo.py"; "b/__init__.py"];
  file_exists := fun p => String.eqb p "a/foo_test.py";
  collate := String.leb;
  pathname_expand := fun x => [x];
  env_seed := None;
  git_log_ct := "1700000000";
  pytest := fun _ _ => 0%Z |}.

(** The serialization test changed together with an initializer. *)
Definition w_dup : World := {|
  git_cat_file_t := fun a => if String.eqb a "HEAD" then "commit" else "";
  git_diff_name_only := fun _ _ =>
    ["cirq-core/cirq/__init__.py";
     "cirq-core/cirq/protocols/json_serialization.py"];
  file_exists := fun p => String.eqb p global_api_test;
  collate := String.leb;
  pathname_expand := fun x => [x];
  env_seed := None;
  git_log_ct := "1700000000";
  pytest := fun _ _ => 0%Z |}.

(** Only files that are not python sources changed. *)
Definition w_docs : World := {|
  git_cat_file_t := fun a => if String.eqb a "HEAD" then "commit" else "";
  git_diff_name_only := fun _ _ => ["README.md"; "docs/tutorials/rabi.ipynb"];
  file_exists := fun _ => true;
  collate := String.leb;
  pathname_expand := fun x => [x];
  env_seed := None;
  git_log_ct := "1700000000";
  pytest := fun _ _ => 5%Z |}.

(** ** Facts about the text utilities *)

Module TextFacts.
Import Text.
#[local] Open Scope string_scope.

Lemma length_append (a b : string) :
  String.length (a ++ b) = String.length a + String.length b.
Proof. induction a as [|c a IH]; simpl; [reflexivity | now rewrite IH]. Qed.

Lemma append_assoc (a b c : string) : (a ++ b) ++ c = a ++ (b ++ c).
Proof. induction a as [|x a IH]; simpl; [reflexivity | now rewrite IH]. Qed.

Lemma append_nil_r (a : string) : a ++ "" = a.
Proof. induction a as [|x a IH]; simpl; [reflexivity | now rewrite IH]. Qed.

Lemma cons_app_neq (c : ascii) (p suf : string) : String c (p ++ suf) <> suf.
Proof.
  intro H. apply (f_equal String.length) in H.
  simpl in H. rewrite length_append in H. lia.
Qed.

Lemma append_inv_tail (a b suf : string) : a ++ suf = b ++ suf -> a = b.
Proof.
  revert b. induction a as [|x a IH]; intros [|y b] H; simpl in H.
  - reflexivity.
  - symmetry in H. now apply cons_app_neq in H.
  - now apply cons_app_neq in H.
  - injection H as -> H. f_equal. now apply IH.
Qed.

(** [grep "SUF$"] selects exactly the lines of the form [p ++ suf]. *)
Lemma has_suffix_iff (suf s : string) :
  has_suffix suf s = true <-> exists p, s = p ++ suf.
Proof.
  induction s as [|c s IH]; cbn [has_suffix].
  - destruct (String.eqb_spec "" suf) as [<-|Hne].
    + split; [exists ""; reflexivity | reflexivity].
    + split; [discriminate|]. intros [p Hp].
      destruct p; simpl in Hp; [congruence | discriminate].
  - destruct (String.eqb_spec (String c s) suf) as [<-|Hne].
    + split; [exists ""; reflexivity | reflexivity].
    + rewrite IH. split.
      * intros [p ->]. exists (String c p). reflexivity.
      * intros [p Hp]. destruct p as [|c' p]; simpl in Hp.
        -- congruence.
        -- injection Hp as _ ->. now exists p.
Qed.

Lemma has_suffix_app (suf p : string) : has_suffix suf (p ++ suf) = true.
Proof. apply has_suffix_iff. now exists p. Qed.

(** [sed "s/OLD$/NEW/"] rewrites the end of a line that ends with [old]. *)
Lemma sed_suffix_app (old new p : string) :
  sed_suffix old new (p ++ old) = p ++ new.
Proof.
  induction p as [|c p IH]; cbn [sed_suffix String.append].
  - destruct old; cbn [sed_suffix]; now rewrite String.eqb_refl.
  - destruct (String.eqb_spec (String c (p ++ old)) old) as [E|_].
    + now apply cons_app_neq in E.
    + now rewrite IH.
Qed.

(** ... and leaves every other line alone. *)
Lemma sed_suffix_id (old new s : string) :
  has_suffix old s = false -> sed_suffix old new s = s.
Proof.
  induction s as [|c s IH]; cbn [has_suffix sed_suffix].
  - destruct (String.eqb "" old); [discriminate | reflexivity].
  - destruct (String.eqb (String c s) old); [discriminate|].
    intros H. now rewrite IH.
Qed.

End TextFacts.

(** ** Facts about [sort] and [uniq] *)

Module SortFacts.
Import Text.

Lemma In_insert_line le x l y :
  In y (insert_line le x l) <-> y = x \/ In y l.
Proof.
  induction l as [|z l IH]; simpl.
  - intuition.
  - destruct (le x z); simpl; rewrite ?IH; intuition.
Qed.

Lemma In_sort le l y : In y (sort le l) <-> In y l.
Proof.
  induction l as [|x l IH]; simpl; [tauto|].
  rewrite In_insert_line, IH. intuition.
Qed.

Lemma uniq_cons x l :
  uniq (x :: l) = match l with
                  | [] => [x]
                  | y :: _ => if String.eqb x y then uniq l else x :: uniq l
                  end.
Proof. reflexivity. Qed.

Lemma In_uniq l y : In y (uniq l) <-> In y l.
Proof.
  induction l as [|x l IH]; [simpl; tauto|].
  rewrite uniq_cons. destruct l as [|z l]; [simpl; tauto|].
  destruct (String.eqb_spec x z) as [->|Hne].
  - rewrite IH. simpl. tauto.
  - change (In y (x :: uniq (z :: l))) with (x = y \/ In y (uniq (z :: l))).
    rewrite IH. simpl. tauto.
Qed.

Section Order.

Variable le : string -> string -> bool.
Hypothesis le_order : total_order le.

Let R (x y : string) : Prop := le x y = true.

Lemma insert_line_sorted x l :
  StronglySorted R l -> StronglySorted R (insert_line le x l).
Proof.
  induction 1 as [|z l Hl IH Hz]; simpl.
  - repeat constructor.
  - destruct (le x z) eqn:E.
    + constructor; [now constructor|].
      constructor; [exact E|].
      eapply Forall_impl; [|exact Hz].
      intros a Ha. exact (le_trans le le_order _ _ _ E Ha).
    + constructor; [exact IH|].
      apply Forall_forall. intros a Ha.
      apply In_insert_line in Ha as [->|Ha].
      * destruct (le_total le le_order x z) as [H|H]; [congruence | exact H].
      * rewrite Forall_forall in Hz. now apply Hz.
Qed.

Lemma sort_sorted l : StronglySorted R (sort le l).
Proof.
  induction l as [|x l IH]; simpl; [constructor | now apply insert_line_sorted].
Qed.

Lemma uniq_sorted l : StronglySorted R l -> StronglySorted R (uniq l).
Proof.
  induction 1 as [|x l Hl IH Hx]; [constructor|].
  rewrite uniq_cons. destruct l as [|z l]; [repeat constructor|].
  destruct (String.eqb x z); [exact IH|].
  constructor; [exact IH|].
  apply Forall_forall. intros a Ha. rewrite In_uniq in Ha.
  rewrite Forall_forall in Hx. now apply Hx.
Qed.

(** In a sorted list equal lines are adjacent, so [uniq] leaves no
    line twice. *)
Lemma uniq_NoDup l : StronglySorted R l -> NoDup (uniq l).
Proof.
  induction 1 as [|x l Hl IH Hx]; [constructor|].
  rewrite uniq_cons. destruct l as [|z l]; [repeat constructor; simpl; tauto|].
  destruct (String.eqb_spec x z) as [->|Hne]; [exact IH|].
  constructor; [|exact IH].
  rewrite In_uniq. intros [Hz|Hin]; [congruence|].
  apply Hne. apply (le_antisym le le_order).
  - rewrite Forall_forall in Hx. apply Hx. now left.
  - apply StronglySorted_inv in Hl as [_ Hz].
    rewrite Forall_forall in Hz. now apply Hz.
Qed.

Lemma uniq_sort_NoDup l : NoDup (uniq (sort le l)).
Proof. apply uniq_NoDup, sort_sorted. Qed.

Lemma uniq_sort_Sorted l : Sorted R (uniq (sort le l)).
Proof. apply StronglySorted_Sorted, uniq_sorted, sort_sorted. Qed.

End Order.

Lemma In_uniq_sort le l y : In y (uniq (sort le l)) <-> In y l.
Proof. now rewrite In_uniq, In_sort. Qed.

End SortFacts.

(** ** The byte order of the C locale is a collation *)

Module ByteOrder.

Lemma leb_trans (x y z : string) :
  String.leb x y = true -> String.leb y z = true -> String.leb x z = true.
Proof.
  unfold String.leb. revert y z.
  induction x as [|a x IH]; intros [|b y] [|c z]; simpl; try easy.
  unfold Ascii.compare.
  destruct (N.compare_spec (N_of_ascii a) (N_of_ascii b)) as [Hab|Hab|Hab];
    destruct (N.compare_spec (N_of_ascii b) (N_of_ascii c)) as [Hbc|Hbc|Hbc];
    destruct (N.compare_spec (N_of_ascii a) (N_of_ascii c)) as [Hac|Hac|Hac];
    try easy; try lia.
  apply IH.
Qed.

Lemma leb_total_order : total_order String.leb.
Proof.
  constructor.
  - exact String.leb_total.
  - exact leb_trans.
  - exact String.leb_antisym.
Qed.

End ByteOrder.

(** ** Facts about the derivation of test-file names *)

Module DeriveFacts.
Import Text TextFacts.
#[local] Open Scope string_scope.

(** A line that already names a test file is mapped to itself. *)
Lemma to_test_name_test (p : string) :
  to_test_name (p ++ "_test.py") = p ++ "_test.py".
Proof.
  unfold to_test_name.
  change (p ++ "_test.py") with (p ++ ("_test" ++ ".py")) at 1.
  rewrite <- append_assoc, sed_suffix_app, append_assoc.
  change ("_test" ++ "_test.py") with "_test_test.py".
  apply sed_suffix_app.
Qed.

(** Any other python file gets [_test] put before its suffix. *)
Lemma to_test_name_prod (stem : string) :
  has_suffix "_test" stem = false ->
  to_test_name (stem ++ ".py") = stem ++ "_test.py".
Proof.
  intros H. unfold to_test_name. rewrite sed_suffix_app.
  apply sed_suffix_id.
  destruct (has_suffix "_test_test.py" (stem ++ "_test.py")) eqn:E; [|reflexivity].
  apply has_suffix_iff in E as [p Hp].
  change "_test_test.py" with ("_test" ++ "_test.py") in Hp.
  rewrite <- append_assoc in Hp. apply append_inv_tail in Hp. subst stem.
  now rewrite has_suffix_app in H.
Qed.

(** The two cases together. *)
Lemma to_test_name_py (stem : string) :
  to_test_name (stem ++ ".py") =
  if has_suffix "_test" stem then stem ++ ".py" else stem ++ "_test.py".
Proof.
  destruct (has_suffix "_test" stem) eqn:E.
  - apply has_suffix_iff in E as [p ->].
    rewrite append_assoc. apply to_test_name_test.
  - now apply to_test_name_prod.
Qed.

(** Lines that [grep] drops would not be renamed by the [sed] stages. *)
Lemma to_test_name_other (s : string) :
  has_suffix ".py" s = false -> to_test_name s = s.
Proof.
  intros H. unfold to_test_name. rewrite (sed_suffix_id ".py") by exact H.
  apply sed_suffix_id.
  destruct (has_suffix "_test_test.py" s) eqn:E; [|reflexivity].
  apply has_suffix_iff in E as [p ->].
  change "_test_test.py" with ("_test_test" ++ ".py") in H.
  now rewrite <- append_assoc, has_suffix_app in H.
Qed.

Lemma to_test_name_idem (s : string) :
  to_test_name (to_test_name s) = to_test_name s.
Proof.
  destruct (has_suffix ".py" s) eqn:E.
  - apply has_suffix_iff in E as [stem ->].
    rewrite to_test_name_py.
    destruct (has_suffix "_test" stem) eqn:F.
    + rewrite to_test_name_py. now rewrite F.
    + apply to_test_name_test.
  - rewrite (to_test_name_other s E). exact (to_test_name_other s E).
Qed.

Lemma In_grep_py (lines : list string) (l : string) :
  In l (grep_py lines) <-> exists stem, l = stem ++ ".py" /\ In l lines.
Proof.
  unfold grep_py. rewrite filter_In, has_suffix_iff.
  split.
  - intros [Hin [stem ->]]. now exists stem.
  - intros [stem [-> Hin]]. split; [exact Hin | now exists stem].
Qed.

(** Membership in the array filled by the pipeline. *)
Lemma In_derived_tests (w : World) (lines : list string) (t : string) :
  In t (derived_tests w lines) <->
  exists stem, In (stem ++ ".py") lines /\
    t = (if has_suffix "_test" stem then stem ++ ".py" else stem ++ "_test.py") /\
    file_exists w t = true.
Proof.
  unfold derived_tests.
  rewrite SortFacts.In_uniq_sort, filter_In, in_map_iff.
  split.
  - intros [[l [Hl Hin]] Hex].
    apply In_grep_py in Hin as [stem [-> Hin]].
    exists stem. rewrite to_test_name_py in Hl. now subst t.
  - intros [stem [Hin [-> Hex]]]. split; [|exact Hex].
    exists (stem ++ ".py"). split; [apply to_test_name_py|].
    apply In_grep_py. now exists stem.
Qed.

End DeriveFacts.

(** ** Running the script: what each part does to the state *)

Module RunFacts.

Ltac sh_step :=
  cbv [bind emit ret exit is_commit git_diff log];
  cbn [trace diffs fst snd negb].

Lemma resolve_given (w : World) (args : list string) (s : state) :
  revision_given args = true ->
  resolve_revision w args s =
  if resolves w (hd "" args)
  then Ret (hd "" args, String.concat " " (tl args)) (log s [CatFile (hd "" args)])
  else Exit 1%Z (log s [CatFile (hd "" args);
                         EchoErr true (no_revision_msg (hd "" args))]).
Proof.
  unfold revision_given, resolve_revision, resolves. intros ->.
  sh_step. destruct (String.eqb (git_cat_file_t w (hd "" args)) "commit");
    sh_step; rewrite <- ?app_assoc; reflexivity.
Qed.

Lemma resolve_absent (w : World) (args : list string) (s : state) :
  revision_given args = false ->
  resolve_revision w args s =
  let rest := String.concat " " args in
  if resolves w "upstream/master"
  then Ret ("upstream/master", rest) (log s [CatFile "upstream/master"])
  else if resolves w "origin/master"
  then Ret ("origin/master", rest)
           (log s [CatFile "upstream/master"; CatFile "origin/master"])
  else if resolves w "master"
  then Ret ("master", rest)
           (log s [CatFile "upstream/master"; CatFile "origin/master";
                   CatFile "master"])
  else Exit 1%Z (log s [CatFile "upstream/master"; CatFile "origin/master";
                         CatFile "master"; EchoErr true no_default_msg]).
Proof.
  unfold revision_given, resolve_revision, resolves. intros ->.
  sh_step.
  destruct (String.eqb (git_cat_file_t w "upstream/master") "commit");
    [reflexivity|].
  destruct (String.eqb (git_cat_file_t w "origin/master") "commit");
    sh_step; [rewrite <- ?app_assoc; reflexivity|].
  destruct (String.eqb (git_cat_file_t w "master") "commit");
    sh_step; rewrite <- ?app_assoc; reflexivity.
Qed.

(** Resolving the revision runs no diff. *)
Lemma resolve_diffs (w : World) (args : list string) (s : state) :
  match resolve_revision w args s with
  | Ret _ s' | Exit _ s' => diffs s' = diffs s
  end.
Proof.
  destruct (revision_given args) eqn:G.
  - rewrite resolve_given by exact G.
    destruct (resolves w (hd "" args)); reflexivity.
  - rewrite resolve_absent by exact G. cbv zeta.
    destruct (resolves w "upstream/master"); [reflexivity|].
    destruct (resolves w "origin/master"); [reflexivity|].
    destruct (resolves w "master"); reflexivity.
Qed.

Lemma changed_tests_run (w : World) (rev : string) (s : state) :
  changed_tests w rev s =
  Ret (selected_tests w (diffs s) rev)
      {| trace := trace s ++ [Diff rev; Diff rev]; diffs := S (S (diffs s)) |}.
Proof.
  unfold changed_tests, selected_tests. sh_step.
  destruct (init_touched (git_diff_name_only w (S (diffs s)) rev));
    sh_step; rewrite <- app_assoc; [reflexivity | now rewrite List.app_nil_r].
Qed.

Lemma run_tests_none (w : World) (rest : string) (s : state) :
  run_tests w rest [] s = Exit 0%Z (log s [EchoErr false (found_msg 0)]).
Proof. reflexivity. Qed.

Lemma run_tests_some (w : World) (rest : string) (files : list string)
  (s : state) :
  files <> [] ->
  let argv := expand_rest w rest ++ files in
  run_tests w rest files s =
  Ret (pytest w argv (seed_value w))
      (log s ([EchoErr false (found_msg (length files));
               Source "dev_tools/pypath"] ++ seed_events w
              ++ [Export (seed_value w); Pytest argv])).
Proof.
  intros Hne. destruct files as [|f files]; [congruence|].
  unfold run_tests, testing_seed, seed_value, seed_events. sh_step.
  cbn [length Nat.eqb].
  destruct (env_seed w); sh_step; rewrite <- ?app_assoc; reflexivity.
Qed.

Lemma run_unresolved (w : World) (args : list string) (c : Z) (s1 : state) :
  resolve_revision w args init_state = Exit c s1 ->
  run w args = {| exit_code := c; events := trace s1 |}.
Proof.
  intros H. unfold run, main, bind at 1. now rewrite H.
Qed.

Lemma run_resolved (w : World) (args : list string) (rev rest : string)
  (s1 : state) :
  resolve_revision w args init_state = Ret (rev, rest) s1 ->
  let files := selected_tests w 0 rev in
  let argv := expand_rest w rest ++ files in
  run w args =
  if Nat.eqb (length files) 0
  then {| exit_code := 0;
          events := trace s1 ++ selection_events rev
                    ++ [EchoErr false (found_msg 0)] |}
  else {| exit_code := pytest w argv (seed_value w);
          events := trace s1 ++ selection_events rev
                    ++ EchoErr false (found_msg (length files))
                       :: test_events w argv |}.
Proof.
  intros H files argv.
  pose proof (resolve_diffs w args init_state) as Hd. rewrite H in Hd.
  cbn [diffs init_state] in Hd.
  unfold run, main, bind at 1. rewrite H. cbn [fst snd].
  unfold bind at 1, emit at 1. unfold bind at 1.
  rewrite changed_tests_run. cbn [trace diffs]. rewrite Hd.
  fold files. destruct files as [|f fs] eqn:E.
  - rewrite run_tests_none. cbn [length Nat.eqb log trace diffs events].
    unfold selection_events, comparing_msg. rewrite <- !app_assoc. reflexivity.
  - rewrite run_tests_some by discriminate. cbv zeta.
    cbn [length Nat.eqb log trace diffs].
    unfold selection_events, test_events, comparing_msg.
    rewrite <- !app_assoc. reflexivity.
Qed.

End RunFacts.

(** ** Word splitting of [${rest}] *)

Module SplitFacts.
Import Text TextFacts.
#[local] Open Scope string_scope.

Lemma words_from_app (a acc s : string) :
  no_blank a = true -> words_from acc (a ++ s) = words_from (acc ++ a) s.
Proof.
  revert acc. induction a as [|c a IH]; intros acc H; cbn [String.append].
  - now rewrite append_nil_r.
  - cbn [no_blank] in H. apply andb_prop in H as [Hc Ha].
    cbn [words_from]. destruct (is_ifs c); [discriminate|].
    rewrite IH by exact Ha. now rewrite append_assoc.
Qed.

Lemma word_split_concat (ws : list string) :
  forallb plain_word ws = true ->
  word_split (String.concat " " ws) = ws.
Proof.
  unfold word_split.
  induction ws as [|x ws IH]; [reflexivity|].
  cbn [forallb]. intros H. apply andb_prop in H as [Hx Hws].
  unfold plain_word in Hx. apply andb_prop in Hx as [Hne Hnb].
  cbn [String.concat]. destruct ws as [|y ws].
  - rewrite <- (append_nil_r x) at 1. rewrite words_from_app by exact Hnb.
    cbn [String.append words_from].
    now destruct (String.eqb x "").
  - rewrite words_from_app by exact Hnb.
    cbn [String.append words_from is_ifs Ascii.eqb Bool.eqb orb].
    destruct (String.eqb x ""); [discriminate|].
    now rewrite (IH Hws).
Qed.

Lemma expand_rest_plain (w : World) (args : list string) :
  forallb plain_word args = true ->
  (forall a, In a args -> pathname_expand w a = [a]) ->
  expand_rest w (String.concat " " args) = args.
Proof.
  intros Hp Hg. unfold expand_rest. rewrite word_split_concat by exact Hp.
  clear Hp. induction args as [|a args IH]; [reflexivity|].
  cbn [flat_map]. rewrite (Hg a) by now left.
  cbn [app]. f_equal. apply IH. intros b Hb. apply Hg. now right.
Qed.

End SplitFacts.

(** ** The shape of a whole run *)

Module TraceFacts.
Import Text TextFacts RunFacts.

(** How revision resolution ends, for each way it can end. *)
Lemma resolve_cases (w : World) (args : list string) (s : state) :
  (exists rev probes,
      resolve_revision w args s
      = Ret (rev, String.concat " " (rest_args args))
            (log s (map CatFile (probes ++ [rev])))
      /\ resolves w rev = true
      /\ (forall p, In p probes -> resolves w p = false)
      /\ (if revision_given args then probes = [] /\ rev = hd "" args
          else exists after, default_revs = probes ++ rev :: after))
  \/ (exists probes msg,
      resolve_revision w args s
      = Exit 1%Z (log s (map CatFile probes ++ [EchoErr true msg]))
      /\ (forall p, In p probes -> resolves w p = false)
      /\ (if revision_given args
          then probes = [hd "" args] /\ msg = no_revision_msg (hd "" args)
          else probes = default_revs /\ msg = no_default_msg)).
Proof.
  unfold rest_args. destruct (revision_given args) eqn:G.
  - rewrite resolve_given by exact G.
    destruct (resolves w (hd "" args)) eqn:R.
    + left. exists (hd "" args), []. repeat split; [exact R | intros _ []].
    + right. exists [hd "" args], (no_revision_msg (hd "" args)).
      repeat split. intros p [<-|[]]. exact R.
  - rewrite resolve_absent by exact G. cbv zeta.
    destruct (resolves w "upstream/master") eqn:R1.
    { left. exists "upstream/master", []. repeat split;
        [exact R1 | intros _ [] | now exists ["origin/master"; "master"]]. }
    destruct (resolves w "origin/master") eqn:R2.
    { left. exists "origin/master", ["upstream/master"]. repeat split;
        [exact R2 | intros p [<-|[]]; exact R1 | now exists ["master"]]. }
    destruct (resolves w "master") eqn:R3.
    { left. exists "master", ["upstream/master"; "origin/master"].
      repeat split; [exact R3 | | now exists []].
      intros p [<-|[<-|[]]]; assumption. }
    right. exists default_revs, no_default_msg. repeat split.
    intros p [<-|[<-|[<-|[]]]]; assumption.
Qed.

Lemma filter_probes (f : event -> bool) (l : list string) :
  (forall a, f (CatFile a) = false) -> filter f (map CatFile l) = [].
Proof.
  intros H. induction l as [|a l IH]; [reflexivity|].
  cbn [map filter]. now rewrite H.
Qed.

Lemma filter_single (f : event -> bool) (e : event) :
  filter f [e] = if f e then [e] else [].
Proof. reflexivity. Qed.

Lemma In_filter_eq (f : event -> bool) (l : list event) (e e' : event) :
  filter f l = [e'] -> f e = true -> In e l -> e = e'.
Proof.
  intros Hf He Hin.
  assert (H : In e (filter f l)) by (apply filter_In; now split).
  rewrite Hf in H. destruct H as [H|[]]. now symmetry.
Qed.

Lemma In_filter_nil (f : event -> bool) (l : list event) (e : event) :
  filter f l = [] -> f e = true -> ~ In e l.
Proof.
  intros Hf He Hin.
  assert (H : In e (filter f l)) by (apply filter_In; now split).
  now rewrite Hf in H.
Qed.

(** The invocations of the test runner in a run. *)
Lemma pytest_events (w : World) (args : list string) :
  filter is_pytest (events (run w args)) =
  match resolve_revision w args init_state with
  | Ret (rev, rest) _ =>
      let files := selected_tests w 0 rev in
      if Nat.eqb (length files) 0 then []
      else [Pytest (expand_rest w rest ++ files)]
  | Exit _ _ => []
  end.
Proof.
  destruct (resolve_cases w args init_state)
    as [(rev & probes & Hres & _) | (probes & msg & Hres & _)].
  - rewrite (run_resolved _ _ _ _ _ Hres), Hres. cbv zeta.
    destruct (Nat.eqb (length (selected_tests w 0 rev)) 0);
      cbn [events log trace init_state app];
      rewrite filter_app, filter_probes by reflexivity;
      unfold test_events, seed_events; destruct (env_seed w); reflexivity.
  - rewrite (run_unresolved _ _ _ _ Hres), Hres.
    cbn [events log trace init_state app].
    now rewrite filter_app, filter_probes by reflexivity.
Qed.

(** The operand of the [echo -e] of line 38, read as one text. *)
Lemma no_revision_msg_eq (arg : string) :
  no_revision_msg arg
  = ("\033[31mNo revision '" ++ arg ++ "'.\033[0m")%string.
Proof.
  unfold no_revision_msg, red.
  rewrite !append_assoc. reflexivity.
Qed.


Lemma In_pytest_events (w : World) (args argv : list string) :
  In (Pytest argv) (events (run w args)) <->
  In (Pytest argv) (filter is_pytest (events (run w args))).
Proof. rewrite filter_In. cbn [is_pytest]. tauto. Qed.

(** What is known of the state in which revision resolution succeeds. *)
Lemma resolved_trace (w : World) (args : list string) (rev rest : string)
  (s1 : state) :
  resolve_revision w args init_state = Ret (rev, rest) s1 ->
  rest = String.concat " " (rest_args args)
  /\ resolves w rev = true
  /\ exists probes, trace s1 = map CatFile probes.
Proof.
  intros H.
  destruct (resolve_cases w args init_state)
    as [(rev' & probes & Hr & Hrev & _) | (probes & msg & Hr & _)];
    rewrite Hr in H; [|discriminate].
  injection H as <- <- <-. repeat split; [exact Hrev|].
  now exists (probes ++ [rev']).
Qed.

Lemma not_In_probes (e : event) (probes : list string) :
  is_probe e = false -> ~ In e (map CatFile probes).
Proof.
  intros He Hin. apply in_map_iff in Hin as [p [<- _]]. discriminate.
Qed.

(** A run that selects at least one test file ends with the test
    runner, whose status it returns. *)
Lemma run_with_tests (w : World) (args : list string) (rev rest : string)
  (s1 : state) :
  resolve_revision w args init_state = Ret (rev, rest) s1 ->
  length (selected_tests w 0 rev) <> 0 ->
  let argv := expand_rest w rest ++ selected_tests w 0 rev in
  (exists pre, events (run w args) = pre ++ [Pytest argv])
  /\ exit_code (run w args) = pytest w argv (seed_value w).
Proof.
  intros Hres Hlen argv.
  pose proof (run_resolved _ _ _ _ _ Hres) as Hrun.
  cbv zeta in Hrun. fold argv in Hrun.
  destruct (Nat.eqb_spec (length (selected_tests w 0 rev)) 0) as [E|_];
    [contradiction|].
  split; [|now rewrite Hrun].
  rewrite Hrun. cbn [events]. unfold test_events.
  exists (trace s1 ++ selection_events rev
          ++ [EchoErr false (found_msg (length (selected_tests w 0 rev)));
              Source "dev_tools/pypath"]
          ++ seed_events w ++ [Export (seed_value w)]).
  rewrite <- !List.app_assoc. reflexivity.
Qed.

(** The exports of the seed in a run: one, just before the test runner
    is invoked, or none. *)
Lemma run_events_resolved (w : World) (args : list string) (rev rest : string)
  (s1 : state) :
  resolve_revision w args init_state = Ret (rev, rest) s1 ->
  exists probes,
    events (run w args)
    = map CatFile probes ++ selection_events rev
      ++ (if Nat.eqb (length (selected_tests w 0 rev)) 0
          then [EchoErr false (found_msg 0)]
          else EchoErr false (found_msg (length (selected_tests w 0 rev)))
               :: test_events w (expand_rest w rest ++ selected_tests w 0 rev)).
Proof.
  intros H. destruct (resolved_trace _ _ _ _ _ H) as (_ & _ & probes & Htr).
  exists probes. rewrite (run_resolved _ _ _ _ _ H). cbv zeta.
  rewrite <- Htr.
  now destruct (Nat.eqb (length (selected_tests w 0 rev)) 0).
Qed.

Lemma In_export (w : World) (args : list string) (s : string) :
  In (Export s) (events (run w args)) ->
  s = seed_value w
  /\ (In GitLog (events (run w args)) <-> env_seed w = None)
  /\ exists argv,
       In (Pytest argv) (events (run w args))
       /\ exit_code (run w args) = pytest w argv s.
Proof.
  intros Hin.
  destruct (resolve_cases w args init_state)
    as [(rev & probes & Hr & _) | (probes & msg & Hr & _)].
  - pose proof (run_resolved _ _ _ _ _ Hr) as Hrun. cbv zeta in Hrun.
    destruct (run_events_resolved _ _ _ _ _ Hr) as [pr Hev].
    rewrite Hev in *.
    destruct (Nat.eqb (length (selected_tests w 0 rev)) 0).
    + exfalso. rewrite !in_app_iff in Hin. destruct Hin as [Hin|[Hin|Hin]].
      * now apply not_In_probes in Hin.
      * cbn in Hin. intuition discriminate.
      * cbn in Hin. intuition discriminate.
    + assert (Hs : s = seed_value w).
      { rewrite !in_app_iff in Hin. destruct Hin as [Hin|[Hin|Hin]].
        - now apply not_In_probes in Hin.
        - cbn in Hin. intuition discriminate.
        - unfold test_events, seed_events in Hin.
          destruct (env_seed w); cbn in Hin; intuition congruence. }
      subst s. split; [reflexivity|]. split.
      * rewrite !in_app_iff. unfold test_events, seed_events.
        destruct (env_seed w) eqn:E; cbn; split; intros H;
          try discriminate; try reflexivity.
        -- destruct H as [H|[H|H]].
           ++ now apply not_In_probes in H.
           ++ intuition discriminate.
           ++ intuition discriminate.
        -- right. right. right. right. now left.
      * exists (expand_rest w (String.concat " " (rest_args args))
                ++ selected_tests w 0 rev).
        split; [|now rewrite Hrun].
        rewrite !in_app_iff. right. right. right.
        unfold test_events. right. apply in_or_app. right. right. now left.
  - exfalso. rewrite (run_unresolved _ _ _ _ Hr) in Hin.
    cbn [events log trace init_state app] in Hin.
    rewrite in_app_iff in Hin. destruct Hin as [Hin|Hin].
    + now apply not_In_probes in Hin.
    + cbn in Hin. intuition discriminate.
Qed.

(** The name-only diffs of a run. *)
Lemma diff_events (w : World) (args : list string) (rev rest : string)
  (s1 : state) :
  resolve_revision w args init_state = Ret (rev, rest) s1 ->
  filter is_diff (events (run w args)) = [Diff rev; Diff rev].
Proof.
  intros H. destruct (run_events_resolved _ _ _ _ _ H) as [probes ->].
  rewrite !filter_app, filter_probes by reflexivity.
  destruct (Nat.eqb (length (selected_tests w 0 rev)) 0); [reflexivity|].
  unfold test_events, seed_events. now destruct (env_seed w).
Qed.

End TraceFacts.

(** ** More about word splitting *)

Module SplitMore.
Import Text TextFacts SortFacts DeriveFacts RunFacts SplitFacts TraceFacts.
#[local] Open Scope string_scope.

(** A blank ends the word being read and starts the next one. *)
Lemma words_from_sep (a acc : string) (c : ascii) (b : string) :
  is_ifs c = true ->
  words_from acc (a ++ String c b)
  = (words_from acc a ++ words_from "" b)%list.
Proof.
  intros Hc. revert acc.
  induction a as [|d a IH]; intros acc; cbn [String.append words_from].
  - rewrite Hc. now destruct (String.eqb acc "").
  - destruct (is_ifs d).
    + rewrite IH. now destruct (String.eqb acc "").
    + apply IH.
Qed.

Lemma word_split_join (args : list string) :
  word_split (String.concat " " args) = flat_map word_split args.
Proof.
  unfold word_split.
  induction args as [|x args IH]; [reflexivity|].
  cbn [String.concat flat_map]. destruct args as [|y args].
  - cbn [flat_map]. now rewrite List.app_nil_r.
  - cbn [String.append]. rewrite words_from_sep by reflexivity.
    now rewrite IH.
Qed.

Lemma no_blank_app (a b : string) :
  no_blank (a ++ b) = no_blank a && no_blank b.
Proof.
  induction a as [|c a IH]; cbn [String.append no_blank]; [reflexivity|].
  now rewrite IH, andb_assoc.
Qed.

Lemma words_from_plain (s acc : string) :
  no_blank acc = true -> forallb plain_word (words_from acc s) = true.
Proof.
  revert acc. induction s as [|c s IH]; intros acc Hacc; cbn [words_from].
  - destruct (String.eqb acc "") eqn:E; [reflexivity|].
    cbn [forallb]. unfold plain_word. now rewrite E, Hacc.
  - destruct (is_ifs c) eqn:Hc.
    + destruct (String.eqb acc "") eqn:E; [now apply IH|].
      cbn [forallb]. unfold plain_word. rewrite E, Hacc. now apply IH.
    + apply IH. rewrite no_blank_app, Hacc. cbn [no_blank]. now rewrite Hc.
Qed.

End SplitMore.

(** ** Sorted lists without duplicates are determined by their lines *)

Module SortMore.
Import Text TextFacts SortFacts DeriveFacts RunFacts SplitFacts TraceFacts.

Section Unique.

Variable le : string -> string -> bool.
Hypothesis le_order : total_order le.

Let R (x y : string) : Prop := le x y = true.

Lemma sorted_head_eq (x y : string) (l1 l2 : list string) :
  StronglySorted R (x :: l1) -> StronglySorted R (y :: l2) ->
  In x (y :: l2) -> In y (x :: l1) -> x = y.
Proof.
  intros H1 H2 Hx Hy.
  apply StronglySorted_inv in H1 as [_ H1].
  apply StronglySorted_inv in H2 as [_ H2].
  rewrite Forall_forall in H1, H2.
  destruct Hx as [Hx|Hx]; [now symmetry|].
  destruct Hy as [Hy|Hy]; [exact Hy|].
  apply (le_antisym le le_order); [now apply H1 | now apply H2].
Qed.

Lemma sorted_nodup_unique (l1 l2 : list string) :
  StronglySorted R l1 -> StronglySorted R l2 ->
  NoDup l1 -> NoDup l2 ->
  (forall x, In x l1 <-> In x l2) -> l1 = l2.
Proof.
  revert l2. induction l1 as [|x l1 IH]; intros [|y l2] S1 S2 N1 N2 Hin.
  - reflexivity.
  - exfalso. apply (Hin y). now left.
  - exfalso. apply (Hin x). now left.
  - assert (x = y) as <-.
    { apply (sorted_head_eq x y l1 l2 S1 S2).
      - apply Hin. now left.
      - apply Hin. now left. }
    f_equal. inversion N1 as [|? ? Hx1 N1']; subst.
    inversion N2 as [|? ? Hx2 N2']; subst.
    apply IH.
    + now apply StronglySorted_inv in S1.
    + now apply StronglySorted_inv in S2.
    + exact N1'.
    + exact N2'.
    + intros z. split; intros Hz.
      * destruct (proj1 (Hin z) (or_intror Hz)) as [<-|H]; [contradiction | exact H].
      * destruct (proj2 (Hin z) (or_intror Hz)) as [<-|H]; [contradiction | exact H].
Qed.

End Unique.

(** The derived files depend only on which lines the diff printed. *)
Lemma derived_tests_ext (w : World) (lines lines' : list string) :
  total_order (collate w) ->
  (forall t, In t (derived_tests w lines) <-> In t (derived_tests w lines')) ->
  derived_tests w lines = derived_tests w lines'.
Proof.
  intros Hord Hin.
  apply (sorted_nodup_unique (collate w) Hord).
  - apply SortFacts.uniq_sorted, SortFacts.sort_sorted, Hord.
  - apply SortFacts.uniq_sorted, SortFacts.sort_sorted, Hord.
  - apply SortFacts.uniq_sort_NoDup, Hord.
  - apply SortFacts.uniq_sort_NoDup, Hord.
  - exact Hin.
Qed.

(** Every derived file is named [..._test.py]. *)
Lemma derived_is_test (w : World) (lines : list string) (t : string) :
  In t (derived_tests w lines) ->
  exists p, t = (p ++ "_test.py")%string.
Proof.
  intros H. apply In_derived_tests in H as (stem & _ & Ht & _).
  destruct (has_suffix "_test" stem) eqn:E.
  - apply has_suffix_iff in E as [p ->]. exists p.
    now rewrite Ht, append_assoc.
  - now exists stem.
Qed.

End SortMore.

(** ** More about whole runs *)

Module RunMore.
Import Text TextFacts SortFacts DeriveFacts RunFacts SplitFacts TraceFacts.

(** Revision resolution ends as [chosen_revision] says. *)
Lemma resolve_chosen (w : World) (args : list string) (s : state) :
  match resolve_revision w args s with
  | Ret (rev, rest) _ =>
      chosen_revision w args = Some rev
      /\ rest = String.concat " " (rest_args args)
  | Exit c _ => chosen_revision w args = None /\ c = 1%Z
  end.
Proof.
  unfold chosen_revision, rest_args.
  destruct (revision_given args) eqn:G.
  - rewrite resolve_given by exact G.
    now destruct (resolves w (hd "" args)).
  - rewrite resolve_absent by exact G. cbv zeta.
    unfold default_revs. cbn [find].
    destruct (resolves w "upstream/master"); [now split|].
    destruct (resolves w "origin/master"); [now split|].
    destruct (resolves w "master"); now split.
Qed.

Lemma chosen_resolved (w : World) (args : list string) (rev : string) :
  chosen_revision w args = Some rev ->
  exists s1, resolve_revision w args init_state
             = Ret (rev, String.concat " " (rest_args args)) s1.
Proof.
  intros H. pose proof (resolve_chosen w args init_state) as Hr.
  destruct (resolve_revision w args init_state) as [[rev' rest] s1|c s1].
  - destruct Hr as [Hc ->]. rewrite H in Hc. injection Hc as <-.
    now exists s1.
  - destruct Hr as [Hc _]. congruence.
Qed.

(** Without a revision argument only the text of [rest] depends on the
    arguments. *)
Lemma resolve_absent_rest (w : World) (a b : list string) (s : state) :
  revision_given a = false -> revision_given b = false ->
  resolve_revision w a s =
  match resolve_revision w b s with
  | Ret (rev, _) s' => Ret (rev, String.concat " " a) s'
  | Exit c s' => Exit c s'
  end.
Proof.
  intros Ha Hb. rewrite !resolve_absent by assumption. cbv zeta.
  destruct (resolves w "upstream/master"); [reflexivity|].
  destruct (resolves w "origin/master"); [reflexivity|].
  destruct (resolves w "master"); reflexivity.
Qed.

(** A run depends on [rest] only through its expansion. *)
Lemma run_same_expansion (w : World) (a b : list string) :
  revision_given a = false -> revision_given b = false ->
  expand_rest w (String.concat " " a) = expand_rest w (String.concat " " b) ->
  run w a = run w b.
Proof.
  intros Ha Hb He.
  pose proof (resolve_absent_rest w a b init_state Ha Hb) as Hab.
  pose proof (resolve_chosen w b init_state) as Hch.
  destruct (resolve_revision w b init_state) as [[rev rest] s1|c s1] eqn:Hrb.
  - destruct Hch as [_ ->]. unfold rest_args in Hrb. rewrite Hb in Hrb.
    rewrite (run_resolved _ _ _ _ _ Hab), (run_resolved _ _ _ _ _ Hrb).
    cbv zeta. now rewrite He.
  - now rewrite (run_unresolved _ _ _ _ Hab), (run_unresolved _ _ _ _ Hrb).
Qed.

(** A path that ends in [__init__.py] ends in [.py]. *)
Lemma init_is_py (l : string) :
  has_suffix "__init__.py" l = true -> has_suffix ".py" l = true.
Proof.
  intros H. apply has_suffix_iff in H as [p ->].
  change "__init__.py" with ("__init__" ++ ".py")%string.
  rewrite <- append_assoc. apply has_suffix_app.
Qed.

Lemma grep_py_none (lines : list string) :
  (forall l, In l lines -> has_suffix ".py" l = false) ->
  grep_py lines = [] /\ init_touched lines = false.
Proof.
  intros H. induction lines as [|l lines IH]; [now split|].
  destruct IH as [IH1 IH2]; [intros x Hx; apply H; now right|].
  unfold grep_py in *. cbn [filter init_touched existsb].
  rewrite (H l) by now left. split; [exact IH1|].
  destruct (has_suffix "__init__.py" l) eqn:E.
  - apply init_is_py in E. rewrite (H l) in E by now left. discriminate.
  - exact IH2.
Qed.

End RunMore.

(** ** Word splitting meets its description *)

Module SplitSpec.
Import Text TextFacts RunFacts SplitFacts TraceFacts SplitMore RunMore.
#[local] Open Scope string_scope.

Lemma is_ifs_blank (c : ascii) : is_ifs c = true <-> blank c.
Proof.
  unfold is_ifs, blank. rewrite !orb_true_iff, !Ascii.eqb_eq. tauto.
Qed.

Lemma no_blank_free (s : string) : no_blank s = true <-> blank_free s.
Proof.
  unfold blank_free. induction s as [|c s IH];
    cbn [no_blank list_ascii_of_string In].
  - split; [intros _ c [] | reflexivity].
  - rewrite andb_true_iff, negb_true_iff, IH. split.
    + intros [Hc Hs] d [<-|Hd]; [|now apply Hs].
      rewrite <- is_ifs_blank. now rewrite Hc.
    + intros H. split.
      * destruct (is_ifs c) eqn:E; [|reflexivity].
        exfalso. apply (H c); [now left | now apply is_ifs_blank].
      * intros d Hd. apply H. now right.
Qed.


Lemma word_eqb (x : string) : word x -> String.eqb x "" = false.
Proof. intros [H _]. now apply String.eqb_neq. Qed.

Lemma word_no_blank (x : string) : word x -> no_blank x = true.
Proof. intros [_ H]. now apply no_blank_free. Qed.

(** The words the script reads are the words of the text. *)
Lemma words_from_splits (s acc : string) :
  blank_free acc -> splits (acc ++ s) (words_from acc s).
Proof.
  revert acc. induction s as [|c s IH]; intros acc Hacc; cbn [words_from].
  - rewrite append_nil_r. destruct (String.eqb_spec acc "") as [->|Hne].
    + constructor.
    + apply splits_last. now split.
  - destruct (is_ifs c) eqn:Hc.
    + apply is_ifs_blank in Hc.
      assert (Hnil : blank_free "") by (intros d []).
      destruct (String.eqb_spec acc "") as [->|Hne].
      * cbn [String.append]. apply splits_blank; [exact Hc|].
        exact (IH "" Hnil).
      * apply splits_word; [now split | exact Hc | exact (IH "" Hnil)].
    + replace (acc ++ String c s) with ((acc ++ String c "") ++ s)
        by (now rewrite append_assoc).
      apply IH. apply no_blank_free. rewrite no_blank_app.
      cbn [no_blank]. rewrite Hc. cbn.
      rewrite andb_true_r. now apply no_blank_free.
Qed.

Lemma word_split_splits (s : string) : splits s (word_split s).
Proof. apply (words_from_splits s ""). intros c []. Qed.

(** ... and a text has no other words. *)
Lemma splits_unique (s : string) (ws : list string) :
  splits s ws -> ws = word_split s.
Proof.
  unfold word_split. induction 1 as [|c s ws Hc _ IH|x Hx|x c s ws Hx Hc _ IH].
  - reflexivity.
  - cbn [words_from]. apply is_ifs_blank in Hc. now rewrite Hc.
  - rewrite <- (append_nil_r x) at 2.
    rewrite words_from_app by now apply word_no_blank.
    cbn [String.append words_from]. now rewrite (word_eqb x Hx).
  - apply is_ifs_blank in Hc.
    rewrite words_from_sep by exact Hc.
    rewrite <- (append_nil_r x) at 2.
    rewrite words_from_app by now apply word_no_blank.
    cbn [String.append words_from app]. rewrite (word_eqb x Hx).
    cbn [app]. now rewrite IH.
Qed.






End SplitSpec.

(** * Properties of the test selector *)

Import Text TextFacts SortFacts DeriveFacts RunFacts SplitFacts TraceFacts.
Import SplitMore SortMore RunMore.

(** C1. For every changed path ending in [.py] the deriver forms the
    corresponding [_test.py] path (the path itself when it already names
    a test file), keeps it only when that file exists, and the derived
    sequence has no duplicates and is sorted by the collation of [sort].
    A changed file [stem.py] alone gives exactly [stem_test.py] when that
    file exists, and nothing, without an error, when it does not. *)
Theorem C1_derived_tests (w : World) (lines : list string)
  (Hord : total_order (collate w)) :
  (forall t, In t (derived_tests w lines) <->
     exists stem, In (stem ++ ".py")%string lines /\
       t = (if has_suffix "_test" stem
            then stem ++ ".py" else stem ++ "_test.py")%string /\
       file_exists w t = true)
  /\ NoDup (derived_tests w lines)
  /\ Sorted (fun x y => collate w x y = true) (derived_tests w lines)
  /\ (forall stem, has_suffix "_test" stem = false ->
        derived_tests w [(stem ++ ".py")%string] =
        if file_exists w (stem ++ "_test.py")%string
        then [(stem ++ "_test.py")%string] else []).
Proof.
  split; [|split; [|split]].
  - intros t. apply In_derived_tests.
  - apply uniq_sort_NoDup, Hord.
  - apply uniq_sort_Sorted, Hord.
  - intros stem Hs. unfold derived_tests, grep_py.
    cbn [filter]. rewrite has_suffix_app. cbn [map filter].
    rewrite to_test_name_prod by exact Hs.
    now destruct (file_exists w (stem ++ "_test.py")%string).
Qed.

Lemma C1_derived_tests_witness :
  total_order (collate w_c1) /\
  derived_tests w_c1 (git_diff_name_only w_c1 0 "origin/master")
  = ["pkg/module_test.py"] /\
  NoDup (derived_tests w_c1 (git_diff_name_only w_c1 0 "origin/master")) /\
  derived_tests w_c1 ["pkg/module.py"] = ["pkg/module_test.py"] /\
  derived_tests w_c1 ["pkg/new.py"] = [].
Proof.
  pose proof (C1_derived_tests w_c1 (git_diff_name_only w_c1 0 "origin/master")
                ByteOrder.leb_total_order) as [_ [Hnd [_ Hone]]].
  split; [exact ByteOrder.leb_total_order|].
  split; [reflexivity|].
  split; [exact Hnd|].
  split.
  - exact (Hone "pkg/module" eq_refl).
  - exact (Hone "pkg/new" eq_refl).
Defined.

(** C2, as stated, fails: when the derived files already contain the
    fixed path, the final array contains it twice. *)
Lemma C2_exactly_once_counterexample :
  init_touched (git_diff_name_only w_dup 1 "HEAD") = true
  /\ count_occ string_dec (selected_tests w_dup 0 "HEAD") global_api_test = 2
  /\ filter is_pytest (events (run w_dup ["HEAD"]))
     = [Pytest [global_api_test; global_api_test]].
Proof. repeat split. Qed.

(** C2, amended. When the second diff lists a path ending in
    [__init__.py], the fixed conformance test path is appended exactly
    once, at the end of the derived files, however many initializers
    changed. It then occurs exactly once in the final array unless the
    derived files already contain it, that is, unless
    [json_serialization.py] or [json_serialization_test.py] of
    [cirq-core/cirq/protocols] is a changed file and the test file
    exists; in that case it occurs twice. *)
Theorem C2_global_appended_once (w : World) (rev : string) (n : nat)
  (Hord : total_order (collate w))
  (Hinit : init_touched (git_diff_name_only w (S n) rev) = true) :
  let lines := git_diff_name_only w n rev in
  let derived := derived_tests w lines in
  selected_tests w n rev = derived ++ [global_api_test]
  /\ count_occ string_dec (selected_tests w n rev) global_api_test
     = (if in_dec string_dec global_api_test derived then 2 else 1)
  /\ (In global_api_test derived <->
      file_exists w global_api_test = true
      /\ (In "cirq-core/cirq/protocols/json_serialization.py" lines
          \/ In "cirq-core/cirq/protocols/json_serialization_test.py" lines)).
Proof.
  intros lines derived.
  assert (Hsel : selected_tests w n rev = derived ++ [global_api_test]).
  { unfold selected_tests. now rewrite Hinit. }
  split; [exact Hsel|]. split.
  - rewrite Hsel, count_occ_app. cbn [count_occ].
    destruct (string_dec global_api_test global_api_test) as [_|Hne];
      [|congruence].
    pose proof (uniq_sort_NoDup _ Hord
                  (filter (file_exists w) (map to_test_name (grep_py lines))))
      as Hnd.
    fold (derived_tests w lines) in Hnd. fold derived in Hnd.
    rewrite (NoDup_count_occ string_dec) in Hnd.
    specialize (Hnd global_api_test).
    destruct (in_dec string_dec global_api_test derived) as [Hin|Hnin].
    + apply (count_occ_In string_dec) in Hin. lia.
    + apply (count_occ_not_In string_dec) in Hnin. lia.
  - unfold derived. rewrite In_derived_tests. split.
    + intros (stem & Hin & Ht & Hex). split; [exact Hex|].
      destruct (has_suffix "_test" stem) eqn:E.
      * right.
        change global_api_test
          with ("cirq-core/cirq/protocols/json_serialization_test" ++ ".py")%string
          in Ht.
        apply append_inv_tail in Ht. rewrite <- Ht in Hin. exact Hin.
      * left.
        change global_api_test
          with ("cirq-core/cirq/protocols/json_serialization" ++ "_test.py")%string
          in Ht.
        apply append_inv_tail in Ht. rewrite <- Ht in Hin. exact Hin.
    + intros (Hex & [Hin|Hin]).
      * exists "cirq-core/cirq/protocols/json_serialization".
        split; [exact Hin|]. split; [reflexivity | exact Hex].
      * exists "cirq-core/cirq/protocols/json_serialization_test".
        split; [exact Hin|]. split; [reflexivity | exact Hex].
Qed.

Lemma C2_global_appended_once_witness :
  total_order (collate w_origin)
  /\ init_touched (git_diff_name_only w_origin 1 "origin/master") = true
  /\ selected_tests w_origin 0 "origin/master"
     = ["a/foo_test.py"; global_api_test]
  /\ count_occ string_dec (selected_tests w_origin 0 "origin/master")
       global_api_test = 1.
Proof.
  pose proof (C2_global_appended_once w_origin "origin/master" 0
                ByteOrder.leb_total_order eq_refl) as [Hsel [Hcount _]].
  split; [exact ByteOrder.leb_total_order|]. split; [reflexivity|].
  split; [exact Hsel | exact Hcount].
Defined.

(** C3. Deriving from a path that already names a test file,
    [stem_test.py], gives that path itself and not [stem_test_test.py];
    the derived set of such a changed file is the file itself when it
    exists; and deriving twice is the same as deriving once. *)
Theorem C3_derivation_idempotent (w : World) (stem line : string) :
  to_test_name (stem ++ "_test.py") = (stem ++ "_test.py")%string
  /\ to_test_name (stem ++ "_test.py") <> (stem ++ "_test_test.py")%string
  /\ derived_tests w [(stem ++ "_test.py")%string]
     = (if file_exists w (stem ++ "_test.py")%string
        then [(stem ++ "_test.py")%string] else [])
  /\ to_test_name (to_test_name line) = to_test_name line.
Proof.
  split; [|split; [|split]].
  - apply to_test_name_test.
  - rewrite to_test_name_test. intros H.
    change (stem ++ "_test_test.py")%string
      with (stem ++ ("_test" ++ "_test.py"))%string in H.
    rewrite <- append_assoc in H.
    apply (f_equal String.length) in H.
    rewrite !length_append in H. cbn in H. lia.
  - unfold derived_tests, grep_py. cbn [filter].
    change (stem ++ "_test.py")%string
      with (stem ++ ("_test" ++ ".py"))%string at 1.
    rewrite <- append_assoc, has_suffix_app.
    cbn [map filter]. rewrite to_test_name_test.
    now destruct (file_exists w (stem ++ "_test.py")%string).
  - apply to_test_name_idem.
Qed.

(** C4. When the revision cannot be resolved the script exits with
    status 1 after writing an error to standard error, and has done
    nothing but probe revisions: with an explicit non-flag first
    argument that is not a commit, the operand of that [echo -e] is
    [\033[31mNo revision 'ARG'.\033[0m] with the argument in it; with no
    revision given and no default candidate that is a commit, it is the
    message about the missing default revision. *)
Theorem C4_unresolved_exit (w : World) (args : list string)
  (Hun : unresolvable w args = true) :
  exit_code (run w args) = 1%Z
  /\ exists probes msg,
       events (run w args) = map CatFile probes ++ [EchoErr true msg]
       /\ if revision_given args
          then probes = [hd "" args]
               /\ msg = ("\033[31mNo revision '" ++ hd "" args
                         ++ "'.\033[0m")%string
          else probes = default_revs /\ msg = no_default_msg.
Proof.
  destruct (resolve_cases w args init_state)
    as [(rev & probes & _ & Hrev & _ & Hshape)
       | (probes & msg & Hres & _ & Hshape)].
  - exfalso. unfold unresolvable in Hun.
    destruct (revision_given args).
    + destruct Hshape as [_ ->]. now rewrite Hrev in Hun.
    + destruct Hshape as [after Hd].
      rewrite forallb_forall in Hun.
      specialize (Hun rev). rewrite Hrev in Hun.
      enough (false = true) by discriminate. apply Hun.
      rewrite Hd. apply in_or_app. right. now left.
  - rewrite (run_unresolved _ _ _ _ Hres). split; [reflexivity|].
    exists probes, msg. split; [reflexivity|].
    destruct (revision_given args); [|exact Hshape].
    destruct Hshape as [-> ->]. split; [reflexivity|].
    apply no_revision_msg_eq.
Qed.

Lemma C4_unresolved_exit_witness :
  (unresolvable w_none ["no-such-rev"; "-v"] = true
   /\ exit_code (run w_none ["no-such-rev"; "-v"]) = 1%Z)
  /\ (unresolvable w_none ["-v"] = true
      /\ exit_code (run w_none ["-v"]) = 1%Z).
Proof.
  split.
  - split; [reflexivity|].
    exact (proj1 (C4_unresolved_exit w_none ["no-such-rev"; "-v"] eq_refl)).
  - split; [reflexivity|].
    exact (proj1 (C4_unresolved_exit w_none ["-v"] eq_refl)).
Defined.




(** C6. Whenever the script exports the seed, the exported value is the
    one already in the environment when the variable is set there, and
    otherwise the output of [git log -1 --pretty="%ct"], which is run
    only in that case; the test runner is run with the exported value.
    Hence two invocations in which the variable is unset and the latest
    commit timestamp is the same export the same seed. *)
Theorem C6_seed_deterministic (w : World) (args : list string) (s : string)
  (Hexp : In (Export s) (events (run w args))) :
  s = match env_seed w with Some v => v | None => git_log_ct w end
  /\ (In GitLog (events (run w args)) <-> env_seed w = None)
  /\ (exists argv,
        In (Pytest argv) (events (run w args))
        /\ exit_code (run w args) = pytest w argv s)
  /\ (forall (w' : World) (args' : list string) (s' : string),
        In (Export s') (events (run w' args')) ->
        env_seed w = None -> env_seed w' = None ->
        git_log_ct w = git_log_ct w' -> s = s').
Proof.
  destruct (In_export w args s Hexp) as (Hs & Hlog & Hpy).
  split; [exact Hs|]. split; [exact Hlog|]. split; [exact Hpy|].
  intros w' args' s' Hexp' Hw Hw' Hct.
  destruct (In_export w' args' s' Hexp') as (Hs' & _).
  rewrite Hs, Hs'. unfold seed_value. now rewrite Hw, Hw', Hct.
Qed.

Lemma C6_seed_deterministic_witness :
  (In (Export "1700000000") (events (run w_unseeded ["master"; "-v"]))
   /\ In (Export "1700000000") (events (run w_origin []))
   /\ "1700000000"%string = git_log_ct w_unseeded)
  /\ (In (Export "42") (events (run w_seeded []))
      /\ ~ In GitLog (events (run w_seeded []))).
Proof.
  assert (H1 : In (Export "1700000000")
                  (events (run w_unseeded ["master"; "-v"])))
    by (vm_compute; tauto).
  assert (H2 : In (Export "1700000000") (events (run w_origin [])))
    by (vm_compute; tauto).
  assert (H3 : In (Export "42") (events (run w_seeded [])))
    by (vm_compute; tauto).
  split.
  - split; [exact H1|]. split; [exact H2|].
    exact (proj1 (C6_seed_deterministic _ _ _ H1)).
  - split; [exact H3|].
    intros Hlog.
    apply (proj1 (proj2 (C6_seed_deterministic _ _ _ H3))) in Hlog.
    discriminate Hlog.
Defined.

(** C7, as stated, fails: the script runs the name-only diff twice, and
    the check for a changed initializer reads the second output, which
    need not be the first. *)
Lemma C7_single_diff_counterexample :
  filter is_diff (events (run w_drift ["HEAD"])) = [Diff "HEAD"; Diff "HEAD"]
  /\ length (filter is_diff (events (run w_drift ["HEAD"]))) <> 1
  /\ init_touched (git_diff_name_only w_drift 0 "HEAD") = false
  /\ filter is_pytest (events (run w_drift ["HEAD"]))
     = [Pytest ["a/foo_test.py"; global_api_test]].
Proof.
  split; [reflexivity|]. split; [discriminate|].
  split; reflexivity.
Qed.

(** C7, amended. Once the revision is resolved the script runs exactly
    two name-only diffs, both against the resolved revision: the test
    files are derived from the output of the first and the check for a
    changed initializer reads the output of the second. When the two
    outputs are the same, both are evaluated over that one list. *)
Theorem C7_two_diffs (w : World) (args : list string) (rev rest : string)
  (s1 : state)
  (Hres : resolve_revision w args init_state = Ret (rev, rest) s1) :
  filter is_diff (events (run w args)) = [Diff rev; Diff rev]
  /\ (forall s,
        changed_tests w rev s
        = Ret (derived_tests w (git_diff_name_only w (diffs s) rev)
               ++ (if init_touched (git_diff_name_only w (S (diffs s)) rev)
                   then [global_api_test] else []))
              {| trace := trace s ++ [Diff rev; Diff rev];
                 diffs := S (S (diffs s)) |})
  /\ (forall argv,
        In (Pytest argv) (events (run w args)) ->
        argv = expand_rest w rest
               ++ derived_tests w (git_diff_name_only w 0 rev)
               ++ (if init_touched (git_diff_name_only w 1 rev)
                   then [global_api_test] else []))
  /\ (forall lines,
        git_diff_name_only w 0 rev = lines ->
        git_diff_name_only w 1 rev = lines ->
        selected_tests w 0 rev
        = derived_tests w lines
          ++ (if init_touched lines then [global_api_test] else [])).
Proof.
  split; [exact (diff_events _ _ _ _ _ Hres)|].
  split; [intros s; apply changed_tests_run|].
  split.
  - intros argv Hin. apply In_pytest_events in Hin.
    rewrite pytest_events, Hres in Hin. cbv zeta in Hin.
    destruct (Nat.eqb (length (selected_tests w 0 rev)) 0); [destruct Hin|].
    destruct Hin as [Hin|[]]. now injection Hin as <-.
  - intros lines H0 H1. unfold selected_tests. now rewrite H0, H1.
Qed.

Lemma C7_two_diffs_witness :
  (exists s1, resolve_revision w_drift ["HEAD"] init_state
              = Ret ("HEAD", "") s1)
  /\ filter is_diff (events (run w_drift ["HEAD"]))
     = [Diff "HEAD"; Diff "HEAD"].
Proof.
  split; [eexists; reflexivity|].
  exact (proj1 (C7_two_diffs w_drift ["HEAD"] "HEAD" "" _ eq_refl)).
Defined.

(** C8. With no revision given (no first argument, an empty one or a
    flag), the candidates upstream/master, origin/master and master are
    probed in this order, the first that is a commit becomes the
    comparison revision, no later candidate is probed, and the diffs
    are taken against it. *)
Theorem C8_default_probing (w : World) (args : list string) (r : string)
  (Habs : revision_given args = false)
  (Hfind : find (resolves w) default_revs = Some r) :
  exists before after,
    default_revs = before ++ r :: after
    /\ (forall b, In b before -> resolves w b = false)
    /\ resolves w r = true
    /\ (forall s, resolve_revision w args s
                  = Ret (r, String.concat " " args)
                        (log s (map CatFile (before ++ [r]))))
    /\ exists tail,
         events (run w args)
         = map CatFile (before ++ [r]) ++ selection_events r ++ tail.
Proof.
  assert (Hgen : exists before after,
    default_revs = before ++ r :: after
    /\ (forall b, In b before -> resolves w b = false)
    /\ resolves w r = true
    /\ (forall s, resolve_revision w args s
                  = Ret (r, String.concat " " args)
                        (log s (map CatFile (before ++ [r]))))).
  { unfold default_revs in Hfind. cbn [find] in Hfind.
    destruct (resolves w "upstream/master") eqn:R1.
    { injection Hfind as <-. exists [], ["origin/master"; "master"].
      repeat split; [intros _ [] | exact R1 |].
      intros s. rewrite resolve_absent by exact Habs. cbv zeta.
      now rewrite R1. }
    destruct (resolves w "origin/master") eqn:R2.
    { injection Hfind as <-. exists ["upstream/master"], ["master"].
      repeat split; [intros b [<-|[]]; exact R1 | exact R2 |].
      intros s. rewrite resolve_absent by exact Habs. cbv zeta.
      now rewrite R1, R2. }
    destruct (resolves w "master") eqn:R3; [|discriminate].
    injection Hfind as <-. exists ["upstream/master"; "origin/master"], [].
    repeat split; [intros b [<-|[<-|[]]]; assumption | exact R3 |].
    intros s. rewrite resolve_absent by exact Habs. cbv zeta.
    now rewrite R1, R2, R3. }
  destruct Hgen as (before & after & Hd & Hb & Hr & Hres).
  exists before, after. repeat split; try assumption.
  rewrite (run_resolved _ _ _ _ _ (Hres init_state)). cbv zeta.
  destruct (Nat.eqb (length (selected_tests w 0 r)) 0);
    cbn [events log trace init_state app]; eexists; reflexivity.
Qed.

Lemma C8_default_probing_witness :
  revision_given ["-v"] = false
  /\ find (resolves w_origin) default_revs = Some "origin/master"
  /\ exists before after,
       default_revs = before ++ "origin/master" :: after
       /\ (forall b, In b before -> resolves w_origin b = false)
       /\ resolves w_origin "origin/master" = true
       /\ (forall s, resolve_revision w_origin ["-v"] s
                     = Ret ("origin/master", String.concat " " ["-v"])
                           (log s (map CatFile (before ++ ["origin/master"]))))
       /\ exists tail,
            events (run w_origin ["-v"])
            = map CatFile (before ++ ["origin/master"])
              ++ selection_events "origin/master" ++ tail.
Proof.
  split; [reflexivity|]. split; [reflexivity|].
  exact (C8_default_probing w_origin ["-v"] "origin/master" eq_refl eq_refl).
Defined.




(** C10. The fixed conformance test path is appended after the sorted
    derived files with no existence check, whereas every derived file
    exists: whenever the second diff lists a changed initializer, the
    test runner is invoked and the fixed path is its last argument,
    whether or not that file exists. *)
Theorem C10_global_unfiltered (w : World) (args : list string)
  (rev rest : string) (s1 : state)
  (Hres : resolve_revision w args init_state = Ret (rev, rest) s1)
  (Hinit : init_touched (git_diff_name_only w 1 rev) = true) :
  let derived := derived_tests w (git_diff_name_only w 0 rev) in
  let argv := expand_rest w rest ++ derived ++ [global_api_test] in
  Forall (fun t => file_exists w t = true) derived
  /\ selected_tests w 0 rev = derived ++ [global_api_test]
  /\ (exists pre, events (run w args) = pre ++ [Pytest argv])
  /\ last argv "" = global_api_test
  /\ exit_code (run w args) = pytest w argv (seed_value w).
Proof.
  intros derived argv.
  assert (Hsel : selected_tests w 0 rev = derived ++ [global_api_test]).
  { unfold selected_tests. now rewrite Hinit. }
  assert (Hlen : length (selected_tests w 0 rev) <> 0).
  { rewrite Hsel, length_app. cbn. lia. }
  destruct (run_with_tests w args rev rest s1 Hres Hlen) as (Hpre & Hexit).
  rewrite Hsel in Hpre, Hexit.
  split; [|split; [exact Hsel|split; [exact Hpre|split; [|exact Hexit]]]].
  - apply Forall_forall. intros t Ht.
    apply In_derived_tests in Ht as (stem & _ & _ & Hex). exact Hex.
  - unfold argv. rewrite !List.app_assoc. apply last_last.
Qed.

Lemma C10_global_unfiltered_witness :
  file_exists w_origin global_api_test = false
  /\ (exists s1, resolve_revision w_origin [] init_state
                 = Ret ("origin/master", "") s1)
  /\ init_touched (git_diff_name_only w_origin 1 "origin/master") = true
  /\ exists pre,
       events (run w_origin [])
       = pre ++ [Pytest ["a/foo_test.py"; global_api_test]].
Proof.
  split; [reflexivity|]. split; [eexists; reflexivity|].
  split; [reflexivity|].
  exact (proj1 (proj2 (proj2
    (C10_global_unfiltered w_origin [] "origin/master" "" _
       eq_refl eq_refl)))).
Defined.

(** * Further properties of the script *)

(** ** The properties *)

Import SplitMore SortMore RunMore.

(** X1. The exit status of every invocation: 1 when no revision is
    settled on; otherwise 0 when no test file is selected, and the
    status of the test runner, run on the expansion of the remaining
    arguments followed by the selected files, when some are. *)
Theorem X1_exit_code (w : World) (args : list string) :
  exit_code (run w args) =
  match chosen_revision w args with
  | None => 1%Z
  | Some rev =>
      let files := selected_tests w 0 rev in
      if Nat.eqb (length files) 0 then 0%Z
      else pytest w (expand_rest w (String.concat " " (rest_args args)) ++ files)
                  (seed_value w)
  end.
Proof.
  pose proof (resolve_chosen w args init_state) as Hch.
  destruct (resolve_revision w args init_state) as [[rev rest] s1|c s1] eqn:Hr.
  - destruct Hch as [-> ->]. rewrite (run_resolved _ _ _ _ _ Hr). cbv zeta.
    now destruct (Nat.eqb (length (selected_tests w 0 rev)) 0).
  - destruct Hch as [-> ->]. now rewrite (run_unresolved _ _ _ _ Hr).
Qed.

(** X2. A first argument that is taken as the revision and is a commit
    is the only revision probed (no default candidate is looked at),
    both diffs are taken against it, and it is not handed to the test
    runner, which gets the expansion of the arguments after it. *)
Theorem X2_explicit_revision (w : World) (args : list string)
  (Hgiven : revision_given args = true)
  (Hcommit : resolves w (hd "" args) = true) :
  (exists tail,
     events (run w args)
     = CatFile (hd "" args) :: selection_events (hd "" args) ++ tail
     /\ forall a, ~ In (CatFile a) tail)
  /\ filter is_diff (events (run w args))
     = [Diff (hd "" args); Diff (hd "" args)]
  /\ forall argv,
       In (Pytest argv) (events (run w args)) ->
       argv = expand_rest w (String.concat " " (tl args))
              ++ selected_tests w 0 (hd "" args).
Proof.
  pose proof (resolve_given w args init_state Hgiven) as Hr.
  rewrite Hcommit in Hr.
  split; [|split].
  - rewrite (run_resolved _ _ _ _ _ Hr). cbv zeta.
    destruct (Nat.eqb (length (selected_tests w 0 (hd "" args))) 0);
      cbn [events log trace init_state app]; eexists; (split; [reflexivity|]).
    + intros a [H|[]]. discriminate.
    + intros a. unfold test_events, seed_events.
      destruct (env_seed w); cbn; intuition discriminate.
  - exact (diff_events _ _ _ _ _ Hr).
  - intros argv Hin. apply In_pytest_events in Hin.
    rewrite pytest_events, Hr in Hin. cbv zeta in Hin.
    destruct (Nat.eqb (length (selected_tests w 0 (hd "" args))) 0);
      [destruct Hin|].
    destruct Hin as [Hin|[]]. now injection Hin as <-.
Qed.

Lemma X2_explicit_revision_witness :
  revision_given ["master"; "-v"] = true
  /\ resolves w_origin "master" = true
  /\ filter is_diff (events (run w_origin ["master"; "-v"]))
     = [Diff "master"; Diff "master"].
Proof.
  split; [reflexivity|]. split; [reflexivity|].
  exact (proj1 (proj2
    (X2_explicit_revision w_origin ["master"; "-v"] eq_refl eq_refl))).
Defined.

(** X3. An empty first argument is not a revision and is lost in word
    splitting: when the arguments after it do not start with a revision
    either, the invocation does exactly what it does without the empty
    argument. *)
Theorem X3_empty_first_argument (w : World) (more : list string)
  (Hmore : revision_given more = false) :
  revision_given ("" :: more)%string = false
  /\ expand_rest w (String.concat " " ("" :: more)%string)
     = expand_rest w (String.concat " " more)
  /\ run w ("" :: more)%string = run w more.
Proof.
  assert (He : expand_rest w (String.concat " " ("" :: more)%string)
               = expand_rest w (String.concat " " more)).
  { unfold expand_rest. rewrite !word_split_join. reflexivity. }
  split; [reflexivity|]. split; [exact He|].
  now apply run_same_expansion.
Qed.

Lemma X3_empty_first_argument_witness :
  revision_given ["-v"] = false
  /\ run w_origin [""; "-v"]%string = run w_origin ["-v"].
Proof.
  split; [reflexivity|].
  exact (proj2 (proj2 (X3_empty_first_argument w_origin ["-v"] eq_refl))).
Defined.

(** X4. What [pytest ${rest}] does to the arguments joined into
    [rest]: the words the script reads from a text are exactly the
    words of the text (maximal runs without space, tab or newline, in
    order); the words of the joined arguments are the words of the
    first argument, then those of the second, and so on, so that
    arguments are never merged; each word is put through pathname
    expansion. An argument that is a word arrives as itself, an
    argument with nothing but blanks (an empty one too) as nothing, and
    an argument is cut at each of its blanks. *)
Theorem X4_rest_split_per_argument (w : World) (args : list string) :
  (forall s words, splits s words <-> words = word_split s)
  /\ word_split (String.concat " " args) = flat_map word_split args
  /\ expand_rest w (String.concat " " args)
     = flat_map (pathname_expand w) (flat_map word_split args)
  /\ (forall a, word a -> word_split a = [a])
  /\ (forall a, (forall c, In c (list_ascii_of_string a) -> blank c) ->
                word_split a = [])
  /\ (forall a c b, blank c ->
        word_split (a ++ String c b) = word_split a ++ word_split b).
Proof.
  split; [|split; [|split; [|split; [|split]]]].
  - intros s words. split.
    + apply SplitSpec.splits_unique.
    + intros ->. apply SplitSpec.word_split_splits.
  - apply word_split_join.
  - unfold expand_rest. now rewrite word_split_join.
  - intros a Ha. symmetry. apply SplitSpec.splits_unique.
    now apply splits_last.
  - intros a Ha. symmetry. apply SplitSpec.splits_unique.
    induction a as [|c a IH]; [constructor|].
    apply splits_blank.
    + apply Ha. now left.
    + apply IH. intros d Hd. apply Ha. now right.
  - intros a c b Hc. unfold word_split.
    apply words_from_sep. now apply SplitSpec.is_ifs_blank.
Qed.

(** X5. The derived files do not depend on the order in which the diff
    lists the changed paths nor on how often it lists one: two outputs
    with the same lines give the same array. *)
Theorem X5_derived_order_irrelevant (w : World) (lines lines' : list string)
  (Hord : total_order (collate w))
  (Hsame : forall l, In l lines <-> In l lines') :
  derived_tests w lines = derived_tests w lines'.
Proof.
  apply derived_tests_ext; [exact Hord|].
  intros t. rewrite !In_derived_tests.
  split; intros (stem & Hin & Ht & Hex); exists stem;
    (split; [now apply Hsame | now split]).
Qed.

Lemma X5_derived_order_irrelevant_witness :
  total_order (collate w_c1)
  /\ (forall l, In l ["pkg/module.py"; "pkg/module_test.py"; "pkg/module.py"]
                <-> In l ["pkg/module_test.py"; "pkg/module.py"])
  /\ derived_tests w_c1 ["pkg/module.py"; "pkg/module_test.py"; "pkg/module.py"]
     = derived_tests w_c1 ["pkg/module_test.py"; "pkg/module.py"].
Proof.
  assert (H : forall l,
             In l ["pkg/module.py"; "pkg/module_test.py"; "pkg/module.py"]
             <-> In l ["pkg/module_test.py"; "pkg/module.py"])
    by (intros l; cbn [In]; tauto).
  split; [exact ByteOrder.leb_total_order|]. split; [exact H|].
  exact (X5_derived_order_irrelevant w_c1 _ _ ByteOrder.leb_total_order H).
Defined.


(** X7. The contract of the header of the script: [stem_test.py] is
    among the derived files exactly when it exists and either it is a
    changed file itself or [stem.py] is a changed file that is not
    itself named as a test. *)
Theorem X7_test_selected_iff (w : World) (lines : list string) (stem : string) :
  In (stem ++ "_test.py")%string (derived_tests w lines) <->
  file_exists w (stem ++ "_test.py")%string = true
  /\ (In (stem ++ "_test.py")%string lines
      \/ (has_suffix "_test" stem = false /\ In (stem ++ ".py")%string lines)).
Proof.
  rewrite In_derived_tests. split.
  - intros (stem' & Hin & Ht & Hex). split; [exact Hex|].
    destruct (has_suffix "_test" stem') eqn:E.
    + left. now rewrite Ht.
    + right. apply append_inv_tail in Ht. subst stem'. now split.
  - intros (Hex & [Hin|[Hs Hin]]).
    + exists (stem ++ "_test")%string.
      change (stem ++ "_test.py")%string
        with (stem ++ ("_test" ++ ".py"))%string in Hin.
      rewrite <- append_assoc in Hin.
      split; [exact Hin|]. rewrite has_suffix_app.
      split; [|exact Hex].
      now rewrite append_assoc.
    + exists stem. split; [exact Hin|]. rewrite Hs. now split.
Qed.

(** X8. The test runner is invoked at most once per invocation of the
    script, and when it is: a revision was settled on, at least one
    test file is selected, the two diffs against that revision were
    run before, and the export of the seed and the test runner are the
    last two actions. *)
Theorem X8_runner_once_last (w : World) (args : list string) :
  length (filter is_pytest (events (run w args))) <= 1
  /\ forall argv,
       In (Pytest argv) (events (run w args)) ->
       exists rev pre,
         chosen_revision w args = Some rev
         /\ selected_tests w 0 rev <> []
         /\ argv = expand_rest w (String.concat " " (rest_args args))
                   ++ selected_tests w 0 rev
         /\ events (run w args)
            = pre ++ [Export (seed_value w); Pytest argv]
         /\ filter is_diff pre = [Diff rev; Diff rev]
         /\ filter is_pytest pre = [].
Proof.
  pose proof (pytest_events w args) as Hpy.
  pose proof (resolve_chosen w args init_state) as Hch.
  destruct (resolve_revision w args init_state) as [[rev rest] s1|c s1] eqn:Hr;
    cbv zeta in Hpy.
  - destruct Hch as [Hch ->].
    destruct (run_events_resolved _ _ _ _ _ Hr) as [probes Hev].
    destruct (Nat.eqb_spec (length (selected_tests w 0 rev)) 0) as [E|E].
    + rewrite Hpy. split; [cbn; lia|].
      intros argv Hin. apply In_pytest_events in Hin. rewrite Hpy in Hin.
      destruct Hin.
    + rewrite Hpy. split; [cbn; lia|].
      intros argv Hin. apply In_pytest_events in Hin. rewrite Hpy in Hin.
      destruct Hin as [Hin|[]]. injection Hin as <-.
      exists rev,
        (map CatFile probes ++ selection_events rev
         ++ [EchoErr false (found_msg (length (selected_tests w 0 rev)));
             Source "dev_tools/pypath"] ++ seed_events w).
      split; [exact Hch|]. split.
      { intros H0. apply E. now rewrite H0. }
      split; [reflexivity|]. split; [|split].
      * rewrite Hev. unfold test_events.
        rewrite <- !List.app_assoc. reflexivity.
      * rewrite !filter_app, filter_probes by reflexivity.
        unfold seed_events. now destruct (env_seed w).
      * rewrite !filter_app, filter_probes by reflexivity.
        unfold seed_events. now destruct (env_seed w).
  - rewrite Hpy. split; [cbn; lia|].
    intros argv Hin. apply In_pytest_events in Hin. rewrite Hpy in Hin.
    destruct Hin.
Qed.

(** X9. When a revision is settled on and neither diff lists a path
    ending in [.py] (the outputs may be empty), nothing is selected:
    the script exits with status 0 and the test runner is not invoked,
    whatever files exist. *)
Theorem X9_no_python_changes (w : World) (args : list string) (rev : string)
  (Hrev : chosen_revision w args = Some rev)
  (Hnone : forall n l, In l (git_diff_name_only w n rev) ->
                       has_suffix ".py" l = false) :
  selected_tests w 0 rev = []
  /\ exit_code (run w args) = 0%Z
  /\ filter is_pytest (events (run w args)) = [].
Proof.
  assert (Hsel : selected_tests w 0 rev = []).
  { unfold selected_tests, derived_tests.
    destruct (grep_py_none _ (Hnone 0)) as [-> _].
    destruct (grep_py_none _ (Hnone 1)) as [_ ->]. reflexivity. }
  split; [exact Hsel|].
  destruct (chosen_resolved w args rev Hrev) as [s1 Hr].
  split.
  - rewrite (run_resolved _ _ _ _ _ Hr). cbv zeta. now rewrite Hsel.
  - rewrite pytest_events, Hr. cbv zeta. now rewrite Hsel.
Qed.

Lemma X9_no_python_changes_witness :
  chosen_revision w_docs ["HEAD"; "-v"] = Some "HEAD"
  /\ exit_code (run w_docs ["HEAD"; "-v"]) = 0%Z.
Proof.
  split; [reflexivity|].
  refine (proj1 (proj2
    (X9_no_python_changes w_docs ["HEAD"; "-v"] "HEAD" eq_refl _))).
  intros n l Hl. cbn in Hl. destruct Hl as [<-|[<-|[]]]; reflexivity.
Defined.

(** X10. Deriving from the derived files gives them back: a second run
    in which exactly the selected test files are the changed files
    selects the same files. *)
Theorem X10_derived_fixpoint (w : World) (lines : list string)
  (Hord : total_order (collate w)) :
  derived_tests w (derived_tests w lines) = derived_tests w lines.
Proof.
  apply derived_tests_ext; [exact Hord|].
  intros t. split.
  - intros Ht. apply In_derived_tests in Ht as (stem & Hin & Ht & _).
    destruct (derived_is_test _ _ _ Hin) as [p Hp].
    change (p ++ "_test.py")%string
      with (p ++ ("_test" ++ ".py"))%string in Hp.
    rewrite <- append_assoc in Hp. apply append_inv_tail in Hp. subst stem.
    rewrite has_suffix_app in Ht. now subst t.
  - intros Ht. destruct (derived_is_test _ _ _ Ht) as [p ->].
    assert (Hex : file_exists w (p ++ "_test.py")%string = true).
    { apply In_derived_tests in Ht as (stem & _ & -> & Hex). exact Hex. }
    apply In_derived_tests. exists (p ++ "_test")%string.
    rewrite has_suffix_app, append_assoc. now repeat split.
Qed.

Lemma X10_derived_fixpoint_witness :
  total_order (collate w_c1)
  /\ derived_tests w_c1
       (derived_tests w_c1 (git_diff_name_only w_c1 0 "origin/master"))
     = derived_tests w_c1 (git_diff_name_only w_c1 0 "origin/master").
Proof.
  split; [exact ByteOrder.leb_total_order|].
  exact (X10_derived_fixpoint w_c1 _ ByteOrder.leb_total_order).
Defined.

(** X11. A diff that lists more changed paths never selects less: every
    file derived from a list of lines is derived from any list that has
    those lines, and a changed initializer stays noticed. *)
Theorem X11_derived_monotone (w : World) (lines lines' : list string)
  (Hincl : incl lines lines') :
  incl (derived_tests w lines) (derived_tests w lines')
  /\ (init_touched lines = true -> init_touched lines' = true).
Proof.
  split.
  - intros t Ht. apply In_derived_tests in Ht as (stem & Hin & Ht & Hex).
    apply In_derived_tests. exists stem. split; [now apply Hincl | now split].
  - unfold init_touched. rewrite !existsb_exists.
    intros (l & Hl & Hs). exists l. split; [now apply Hincl | exact Hs].
Qed.

Lemma X11_derived_monotone_witness :
  incl ["pkg/module.py"] ["notes.md"; "pkg/module.py"]
  /\ incl (derived_tests w_c1 ["pkg/module.py"])
          (derived_tests w_c1 ["notes.md"; "pkg/module.py"]).
Proof.
  assert (H : incl ["pkg/module.py"] ["notes.md"; "pkg/module.py"])
    by (intros l [<-|[]]; cbn [In]; tauto).
  split; [exact H|].
  exact (proj1 (X11_derived_monotone w_c1 _ _ H)).
Defined.

(** X12. The messages the script itself writes, all with [echo] to
    standard error: one [echo -e] with an error when no revision is
    settled on; otherwise the notice of the revision compared against,
    then the count of selected test files, which is the number of file
    arguments the test runner gets if it is run. What the programs the
    script runs write there (git, grep, the sourced file, the test
    runner) is not part of this. *)
Theorem X12_diagnostics (w : World) (args : list string) :
  match chosen_revision w args with
  | None =>
      exists msg, filter is_echo (events (run w args)) = [EchoErr true msg]
  | Some rev =>
      filter is_echo (events (run w args))
      = [EchoErr false (comparing_msg rev);
         EchoErr false (found_msg (length (selected_tests w 0 rev)))]
      /\ forall argv,
           In (Pytest argv) (events (run w args)) ->
           length argv
           = length (expand_rest w (String.concat " " (rest_args args)))
             + length (selected_tests w 0 rev)
  end.
Proof.
  pose proof (resolve_chosen w args init_state) as Hch.
  destruct (resolve_cases w args init_state)
    as [(rev & probes & Hr & _) | (probes & msg & Hr & _)];
    rewrite Hr in Hch; destruct Hch as [-> Hrest].
  - split.
    + destruct (run_events_resolved _ _ _ _ _ Hr) as [pr ->].
      rewrite !filter_app, filter_probes by reflexivity.
      destruct (Nat.eqb_spec (length (selected_tests w 0 rev)) 0) as [E|E].
      * now rewrite E.
      * unfold test_events, seed_events. now destruct (env_seed w).
    + intros argv Hin. apply In_pytest_events in Hin.
      rewrite pytest_events, Hr in Hin. cbv zeta in Hin.
      destruct (Nat.eqb (length (selected_tests w 0 rev)) 0); [destruct Hin|].
      destruct Hin as [Hin|[]]. injection Hin as <-. apply length_app.
  - exists msg. rewrite (run_unresolved _ _ _ _ Hr).
    cbn [events log trace init_state app].
    now rewrite filter_app, filter_probes by reflexivity.
Qed.

(** X13. The diff is only ever run against a revision for which
    [git cat-file -t] printed [commit], and only after that probe: no
    diff is run when revision resolution fails. *)
Theorem X13_diff_against_commit (w : World) (args : list string) (rev : string)
  (Hdiff : In (Diff rev) (events (run w args))) :
  resolves w rev = true
  /\ chosen_revision w args = Some rev
  /\ exists before after,
       events (run w args) = before ++ CatFile rev :: after
       /\ ~ In (Diff rev) before.
Proof.
  pose proof (resolve_chosen w args init_state) as Hch.
  destruct (resolve_cases w args init_state)
    as [(rev' & probes & Hr & Hrev & _) | (probes & msg & Hr & _)];
    rewrite Hr in Hch.
  - destruct Hch as [Hch _].
    assert (Hd : In (Diff rev) (filter is_diff (events (run w args))))
      by (apply filter_In; now split).
    rewrite (diff_events _ _ _ _ _ Hr) in Hd.
    assert (rev' = rev) as ->
      by (destruct Hd as [Hd|[Hd|[]]]; now injection Hd).
    split; [exact Hrev|]. split; [exact Hch|].
    pose proof (run_resolved _ _ _ _ _ Hr) as Hrun. cbv zeta in Hrun.
    exists (map CatFile probes).
    destruct (Nat.eqb (length (selected_tests w 0 rev)) 0);
      rewrite Hrun; cbn [events log trace init_state app];
      rewrite map_app, <- List.app_assoc; cbn [map app];
      eexists; (split; [reflexivity|]);
      apply not_In_probes; reflexivity.
  - exfalso. rewrite (run_unresolved _ _ _ _ Hr) in Hdiff.
    cbn [events log trace init_state app] in Hdiff.
    apply in_app_or in Hdiff as [H|[H|[]]]; [|discriminate].
    now apply not_In_probes in H.
Qed.

Lemma X13_diff_against_commit_witness :
  In (Diff "origin/master") (events (run w_origin ["-v"]))
  /\ resolves w_origin "origin/master" = true.
Proof.
  assert (H : In (Diff "origin/master") (events (run w_origin ["-v"])))
    by (vm_compute; tauto).
  split; [exact H|].
  exact (proj1 (X13_diff_against_commit w_origin ["-v"] "origin/master" H)).
Defined.
